(** * datafunk: a shallow embedding of four batch utilities

    The development follows the Python sources of the repository:
    - [sam_2_fasta.py]            (module [Sam]),
    - [anonymize_microreact.py]   (module [Anonymize]),
    - [curate_lineages.py]        (module [Curate]),
    - [gisaid_json_2_metadata.py] (module [Gisaid]).

    Part I holds the definitions, Part II the lemmas and theorems.
    Python exceptions are values of [exn]; a function that can raise
    returns a [result].  Characters are 8-bit ([ascii]), so the character
    classes below are the Python ones restricted to code points 0..255. *)

From Stdlib Require Import ZArith Lia List Ascii String DecimalString.
From stdpp Require Import base list strings gmap.
Local Open Scope string_scope.
Local Open Scope nat_scope.
Local Open Scope list_scope.
Local Open Scope stdpp_scope.

(* ===================================================================== *)
(** * Part I: definitions                                                 *)
(* ===================================================================== *)

(** ** Python values, exceptions and built-ins *)

Inductive exn : Set :=
  | AttributeError | KeyError | IndexError | TypeError | ValueError
  | StopIteration | AssertionError | NameError | SystemExit.

Inductive result (A : Type) : Type :=
  | Ok (a : A)
  | Raise (e : exn).
Arguments Ok {A} a.
Arguments Raise {A} e.

#[global] Instance result_ret : MRet result := λ A x, Ok x.
#[global] Instance result_bind : MBind result :=
  λ A B f m, match m with Ok a => f a | Raise e => Raise e end.

Definition is_Ok {A} (r : result A) : Prop := ∃ a, r = Ok a.

(** [l[i]] on a Python list: an [IndexError] out of range. *)
Definition list_getitem {A} (l : list A) (i : nat) : result A :=
  match l !! i with Some x => Ok x | None => Raise IndexError end.

(** [d[k]] on a Python dict: a [KeyError] when the key is absent. *)
Definition getitem {V} (d : gmap string V) (k : string) : result V :=
  match d !! k with Some v => Ok v | None => Raise KeyError end.

(** A left fold whose body can raise: a [for] loop over [l]. *)
Fixpoint foldlM {A S} (f : S → A → result S) (s : S) (l : list A) : result S :=
  match l with
  | [] => Ok s
  | x :: l' => s' ← f s x; foldlM f s' l'
  end.

Module Py.

Definition ord (c : ascii) : nat := nat_of_ascii c.

Definition between (lo hi : nat) (c : ascii) : bool :=
  (lo <=? ord c) && (ord c <=? hi).

(** The regular-expression class [[A-Z]]. *)
Definition is_AZ (c : ascii) : bool := between 65 90 c.

(** The regular-expression class [\d]. *)
Definition is_digit (c : ascii) : bool := between 48 57 c.

(** [str.isalpha] on one character. *)
Definition isalpha (c : ascii) : bool :=
  between 65 90 c || between 97 122 c
  || (ord c =? 170) || (ord c =? 181) || (ord c =? 186)
  || between 192 214 c || between 216 246 c || between 248 255 c.

(** [str.isspace] on one character: the characters [strip()] removes. *)
Definition isspace (c : ascii) : bool :=
  between 9 13 c || between 28 32 c || (ord c =? 133) || (ord c =? 160).

Definition chars (s : string) : list ascii := list_ascii_of_string s.
Definition str_of (l : list ascii) : string := string_of_list_ascii l.

(** [max] of a non-empty sequence of characters, by ordinal; the first
    maximal element is returned, as in Python. *)
Definition max_char (c : ascii) (l : list ascii) : ascii :=
  foldl (λ m x, if ord m <? ord x then x else m) c l.

(** *** Strings as character lists *)

Fixpoint is_prefix (p s : list ascii) : bool :=
  match p, s with
  | [], _ => true
  | a :: p', b :: s' => Ascii.eqb a b && is_prefix p' s'
  | _ :: _, [] => false
  end.

(** [s.replace(old, new)] for a non-empty [old]: occurrences are replaced
    left to right and do not overlap.  [skip] counts the characters of an
    occurrence still to be dropped. *)
Fixpoint replace_from (old new : list ascii) (skip : nat) (s : list ascii)
  : list ascii :=
  match s with
  | [] => []
  | c :: s' =>
      match skip with
      | S k => replace_from old new k s'
      | O => if is_prefix old s
             then new ++ replace_from old new (length old - 1) s'
             else c :: replace_from old new 0 s'
      end
  end.

(** [s.replace(old, new)]; for the empty [old] Python puts [new] before
    every character and at the end. *)
Definition replace (old new s : list ascii) : list ascii :=
  match old with
  | [] => new ++ flat_map (λ c, c :: new) s
  | _ :: _ => replace_from old new 0 s
  end.

(** A regular expression is given by its matcher at one position: on the
    rest of the subject it returns the length of the match that starts
    there.  All expressions of this program match at least one
    character. *)
Definition matcher := list ascii → option nat.

(** [re.findall(r, s)]: the matches left to right, without overlap. *)
Fixpoint findall_from (m : matcher) (skip : nat) (s : list ascii)
  : list (list ascii) :=
  match s with
  | [] => []
  | _ :: s' =>
      match skip with
      | S k => findall_from m k s'
      | O => match m s with
             | Some (S n) => take (S n) s :: findall_from m n s'
             | _ => findall_from m 0 s'
             end
      end
  end.

Definition findall (m : matcher) (s : list ascii) : list (list ascii) :=
  findall_from m 0 s.

(** [re.search(r, s).group()]: the leftmost match. *)
Fixpoint search (m : matcher) (s : list ascii) : option (list ascii) :=
  match s with
  | [] => None
  | _ :: s' =>
      match m s with
      | Some n => Some (take n s)
      | None => search m s'
      end
  end.

(** The number of leading characters of [s] that satisfy [p]. *)
Fixpoint run_length (p : ascii → bool) (s : list ascii) : nat :=
  match s with
  | c :: s' => if p c then S (run_length p s') else 0
  | [] => 0
  end.

(** [int(s)] on a string of decimal digits. *)
Definition digit_value (c : ascii) : nat := ord c - 48.

Definition int_of_digits (l : list ascii) : nat :=
  foldl (λ n c, 10 * n + digit_value c) 0 l.

(** *** Strings *)

(** [s.split(sep)] for a one-character separator. *)
Fixpoint split (sep : ascii) (s : string) : list string :=
  match s with
  | EmptyString => [EmptyString]
  | String c s' =>
      if Ascii.eqb c sep then EmptyString :: split sep s'
      else match split sep s' with
           | w :: ws => String c w :: ws
           | [] => [String c EmptyString]
           end
  end.

(** [sep.join(l)] *)
Fixpoint join (sep : string) (l : list string) : string :=
  match l with
  | [] => EmptyString
  | x :: l' =>
      match l' with
      | [] => x
      | _ :: _ => x +:+ sep +:+ join sep l'
      end
  end.

(** [s.lstrip(..)], [s.rstrip(..)] and [s.strip(..)]; [p] tells the
    characters to remove: [isspace] when the call has no argument. *)
Fixpoint lstrip (p : ascii → bool) (s : string) : string :=
  match s with
  | EmptyString => EmptyString
  | String c s' => if p c then lstrip p s' else s
  end.

Fixpoint rstrip (p : ascii → bool) (s : string) : string :=
  match s with
  | EmptyString => EmptyString
  | String c s' =>
      match rstrip p s' with
      | EmptyString => if p c then EmptyString else String c EmptyString
      | r => String c r
      end
  end.

Definition strip (p : ascii → bool) (s : string) : string :=
  lstrip p (rstrip p s).

(** Membership of a character in the argument of [strip("..")]. *)
Definition one_of (set : string) (c : ascii) : bool :=
  existsb (Ascii.eqb c) (chars set).

(** [{x: y for x, y in pairs}]: a later pair replaces an earlier one. *)
Definition dict_of_pairs {V} (pairs : list (string * V)) : gmap string V :=
  foldl (λ d p, <[p.1 := p.2]> d) ∅ pairs.

End Py.

(* --------------------------------------------------------------------- *)
(** ** sam_2_fasta.py *)
(* --------------------------------------------------------------------- *)

Module Sam.
Import Py.

Definition star : ascii := "*"%char.
Definition gap : ascii := "-"%char.

(** An extension function of [lambda_dict]:
    [(query_start, ref_start, length, seq) -> (query, ref, extension)]. *)
Definition cigar_fun : Type :=
  nat → nat → nat → list ascii → nat * nat * list ascii.

(** [seq[query_start : query_start + length]] *)
Definition slice (seq : list ascii) (start len : nat) : list ascii :=
  take len (drop start seq).

(** The dict of functions applied to CIGAR operations. *)
Definition lambda_dict : list (ascii * cigar_fun) :=
  [ ("M"%char, λ q r n seq, (q + n, r + n, slice seq q n));
    ("I"%char, λ q r n seq, (q + n, r    , []));
    ("D"%char, λ q r n seq, (q    , r + n, replicate n gap));
    ("N"%char, λ q r n seq, (q    , r + n, replicate n gap));
    ("S"%char, λ q r n seq, (q + n, r    , []));
    ("H"%char, λ q r n seq, (q    , r    , []));
    ("P"%char, λ q r n seq, (q    , r    , []));
    ("="%char, λ q r n seq, (q + n, r + n, slice seq q n));
    ("X"%char, λ q r n seq, (q + n, r + n, slice seq q n)) ].

(** [lambda_dict[operation]] *)
Definition lambda_dict_getitem (op : ascii) : result cigar_fun :=
  match list_find (λ p, p.1 = op) lambda_dict with
  | Some (_, (_, f)) => Ok f
  | None => Raise KeyError
  end.

(** The fields of a parsed alignment line that [get_one_string] reads:
    [int(aln_info_dict['POS'])], [aln_info_dict['CIGAR']] and
    [aln_info_dict['SEQ']]. *)
Record sam_line : Type := {
  POS : Z;
  CIGAR : list ascii;
  SEQ : list ascii
}.

(** [re.findall('\d{1,}[A-Z]{1}', cigar)].  At a position the expression
    matches a maximal run of digits followed by one upper-case letter;
    [run] is the run of digits read since the last non-digit. *)
Fixpoint split_sam_cigar_from (run : list ascii) (cigar : list ascii)
  : list (list ascii) :=
  match cigar with
  | [] => []
  | c :: rest =>
      if is_digit c then split_sam_cigar_from (run ++ [c]) rest
      else if is_AZ c && negb (bool_decide (run = []))
           then (run ++ [c]) :: split_sam_cigar_from [] rest
           else split_sam_cigar_from [] rest
  end.

Definition split_sam_cigar (cigar : list ascii) : list (list ascii) :=
  split_sam_cigar_from [] cigar.

(** [(one_operation[-1:], int(one_operation[:-1]))] *)
Definition split_sam_cigar_operation (one_operation : list ascii)
  : list ascii * nat :=
  let n := length one_operation in
  (drop (n - 1) one_operation, int_of_digits (take (n - 1) one_operation)).

Definition get_sam_cigar_operations (cigar : list ascii)
  : list (list ascii * nat) :=
  map split_sam_cigar_operation (split_sam_cigar cigar).

(** The key of [lambda_dict] named by a one-character operation string. *)
Definition operation_key (operation : list ascii) : result cigar_fun :=
  match operation with
  | [c] => lambda_dict_getitem c
  | _ => Raise KeyError
  end.

(** The body of the loop over the operations; the state is
    [(new_seq, qstart, rstart)]. *)
Definition apply_operation (seq : list ascii)
    (st : list ascii * nat * nat) (o : list ascii * nat)
  : result (list ascii * nat * nat) :=
  let '(new_seq, qstart, rstart) := st in
  f ← operation_key o.1;
  let '(new_qstart, new_rstart, extension) := f qstart rstart o.2 seq in
  Ok (new_seq ++ extension, new_qstart, new_rstart).

(** The reference bases an operation consumes, read off [lambda_dict]. *)
Definition ref_consumed (o : list ascii * nat) : nat :=
  match operation_key o.1 with
  | Ok f => (f 0 0 o.2 []).1.2
  | Raise _ => 0
  end.

(** [get_one_string]: [Ok None] is the [None] returned for a negative
    position. *)
Definition get_one_string (l : sam_line) (rlen : Z)
  : result (option (list ascii)) :=
  if (POS l <? 0)%Z then Ok None
  else
    let operations := get_sam_cigar_operations (CIGAR l) in
    let pos := Z.to_nat (POS l) in
    st ← foldlM (apply_operation (SEQ l)) (replicate pos star, 0, pos)
                operations;
    let new_seq := st.1.1 in
    let rightpad :=
      replicate (Z.to_nat (rlen - Z.of_nat (length new_seq))) star in
    Ok (Some (new_seq ++ rightpad)).

(** [check_and_get_flattened_site]; [max] of an empty site raises. *)
Definition check_and_get_flattened_site (site : list ascii) : result ascii :=
  let check := length (filter (λ x, isalpha x = true) site) in
  if 1 <? check then Ok "&"%char
  else match site with
       | [] => Raise ValueError
       | c :: rest => Ok (max_char c rest)
       end.

(** The three expressions of [swap_in_gaps_Ns]. *)

(** [[A-Z]\*+[A-Z]] *)
Definition r_internal : matcher := λ s,
  match s with
  | c :: rest =>
      let k := run_length (λ x, Ascii.eqb x star) rest in
      if is_AZ c && (0 <? k)
      then match rest !! k with
           | Some d => if is_AZ d then Some (k + 2) else None
           | None => None
           end
      else None
  | [] => None
  end.

(** [\*+[A-Z]], to be tried at the start of the subject only ([^]). *)
Definition r_left_here : matcher := λ s,
  let k := run_length (λ x, Ascii.eqb x star) s in
  if 0 <? k
  then match s !! k with
       | Some d => if is_AZ d then Some (k + 1) else None
       | None => None
       end
  else None.

(** [[A-Z]\*+$]; [$] holds at the end of the subject and before a
    newline that ends it. *)
Definition r_right : matcher := λ s,
  match s with
  | c :: rest =>
      let k := run_length (λ x, Ascii.eqb x star) rest in
      if is_AZ c && (0 <? k)
      then match drop k rest with
           | [] => Some (k + 1)
           | [nl] => if Ascii.eqb nl "010"%char then Some (k + 1) else None
           | _ => None
           end
      else None
  | [] => None
  end.

Definition swap_internal (seq x : list ascii) : list ascii :=
  let n := length x in
  replace x (take 1 x ++ replace [star] ["N"%char] (drop 1 (take (n - 1) x))
               ++ drop (n - 1) x) seq.

Definition swap_in_gaps_Ns (seq : list ascii) : list ascii :=
  let seq := foldl swap_internal seq (findall r_internal seq) in
  let seq :=
    match option_map (λ n, take n seq) (r_left_here seq) with
    | Some g_left =>
        let n := length g_left in
        replace g_left
          (replace [star] [gap] (take (n - 1) g_left) ++ drop (n - 1) g_left)
          seq
    | None => seq
    end in
  match search r_right seq with
  | Some g_right =>
      replace g_right
        (take 1 g_right ++ replace [star] [gap] (drop 1 g_right)) seq
  | None => seq
  end.

(** the transposition made by zip on the unpacked lists: the columns, as many as the shortest list has. *)
Definition column (lists : list (list ascii)) (j : nat) : list ascii :=
  omap (λ l, l !! j) lists.

Definition zip_star (lists : list (list ascii)) : list (list ascii) :=
  match lists with
  | [] => []
  | l :: ls => map (column lists)
                 (seq 0 (foldl (λ m x, Nat.min m (length x)) (length l) ls))
  end.

(** [list(x)] of one element of [block_lines_sites_list]. *)
Definition list_of (x : option (list ascii)) : result (list ascii) :=
  match x with
  | Some s => Ok s
  | None => Raise TypeError
  end.

(** The merged sequence [seq_flat] of a block of two or more lines. *)
Definition flatten_block (block_lines_sites_list : list (option (list ascii)))
  : result (list ascii) :=
  lists ← mapM list_of block_lines_sites_list;
  mapM check_and_get_flattened_site (zip_star lists).

Definition get_seq_from_block (sam_block : list sam_line) (rlen : Z)
  : result (list ascii) :=
  block_lines_sites_list ← mapM (λ l, get_one_string l rlen) sam_block;
  match block_lines_sites_list with
  | [x] => s ← list_of x; Ok (swap_in_gaps_Ns s)
  | _ => seq_flat ← flatten_block block_lines_sites_list;
         Ok (swap_in_gaps_Ns seq_flat)
  end.

End Sam.

(** Python dicts whose iteration order the code depends on: association
    lists in insertion order; assigning to a key that is present keeps its
    place. *)
Module ODict.
Section odict.
Context {K V : Type} `{EqDecision K}.

Definition odict : Type := list (K * V).

Fixpoint get (k : K) (d : odict) : option V :=
  match d with
  | [] => None
  | (k', v) :: d' => if decide (k = k') then Some v else get k d'
  end.

Fixpoint set (k : K) (v : V) (d : odict) : odict :=
  match d with
  | [] => [(k, v)]
  | (k', v') :: d' =>
      if decide (k = k') then (k, v) :: d' else (k', v') :: set k v d'
  end.

Definition keys (d : odict) : list K := map fst d.

End odict.
Arguments odict : clear implicits.

(** [d[k].append(x)] on a [defaultdict(list)]. *)
Definition append {K V} `{EqDecision K} (k : K) (x : V)
    (d : odict K (list V)) : odict K (list V) :=
  set k (default [] (get k d) ++ [x]) d.

(** [Counter(l)]: keys in order of first occurrence. *)
Definition Counter {K} `{EqDecision K} (l : list K) : odict K nat :=
  foldl (λ c x, set x (default 0 (get x c) + 1) c) [] l.

(** [c.most_common()]: by decreasing count, equal counts in insertion
    order. *)
Fixpoint insert_by_count {K} (p : K * nat) (l : list (K * nat))
  : list (K * nat) :=
  match l with
  | [] => [p]
  | q :: l' => if p.2 <? q.2 then q :: insert_by_count p l' else p :: l
  end.

Definition most_common {K} (c : odict K nat) : list (K * nat) :=
  foldr insert_by_count [] c.

End ODict.

(* --------------------------------------------------------------------- *)
(** ** anonymize_microreact.py *)
(* --------------------------------------------------------------------- *)

Module Anonymize.
Import Py.

(** The reading loop of [anonymize_microreact]: the header and one dict
    per data line.  A file without lines leaves [header] unbound, which
    the function meets as a [NameError] when it copies the header. *)
Definition read_metadata (lines : list string)
  : result (list string * list (gmap string string)) :=
  match lines with
  | [] => Raise NameError
  | line :: rest =>
      let header := split "," (rstrip isspace line) in
      if forallb (λ x, bool_decide (x ∈ header)) ["adm2"; "sequence_name"]
      then Ok (header,
               map (λ line, dict_of_pairs
                              (zip header (split "," (rstrip isspace line))))
                   rest)
      else Raise SystemExit
  end.

(** The tally [admn2_counts]. *)
Definition count_locations (metadata_list : list (gmap string string))
  : result (gmap string nat) :=
  foldlM (λ admn2_counts entry,
            location ← getitem entry "adm2";
            Ok (match admn2_counts !! location with
                | Some n => <[location := n + 1]> admn2_counts
                | None => <[location := 1]> admn2_counts
                end))
         ∅ metadata_list.

(** The set [anonymous_locations]. *)
Definition anonymous_locations (admn2_counts : gmap string nat)
  : gset string :=
  dom (filter (λ kv : string * nat, kv.2 < 5) admn2_counts).

(** The loop that sets [entry['anonymized_admn2']]. *)
Definition anonymize_entry (anonymous : gset string)
    (entry : gmap string string) : result (gmap string string) :=
  adm2 ← getitem entry "adm2";
  if bool_decide (adm2 ∈ anonymous)
  then Ok (<["anonymized_admn2" := ""]> entry)
  else Ok (<["anonymized_admn2" := adm2]> entry).

(** [anonymize_microreact] from the tally to the redacted location of
    every entry. *)
Definition anonymize_locations (metadata_list : list (gmap string string))
  : result (list (gmap string string)) :=
  admn2_counts ← count_locations metadata_list;
  mapM (anonymize_entry (anonymous_locations admn2_counts)) metadata_list.

(** [get_random_name] for the number [r] that [random.randint] returns:
    the number in six digits at least, zeros first. *)
Definition get_random_name (r : nat) : string :=
  let num_str := NilEmpty.string_of_uint (Nat.to_uint r) in
  "COG" +:+ str_of (replicate (6 - String.length num_str) "0"%char)
        +:+ num_str.

(** The loop [while anonymous_name in random_names], the first call of
    [get_random_name] included: [draws] holds the numbers that
    [random.randint] returns from here on, and the result is [None] when
    they are used up before a new name is found. *)
Fixpoint fresh_name (random_names : list string) (draws : list nat)
  : option (string * list nat) :=
  match draws with
  | [] => None
  | r :: draws' =>
      let anonymous_name := get_random_name r in
      if bool_decide (anonymous_name ∈ random_names)
      then fresh_name random_names draws'
      else Some (anonymous_name, draws')
  end.

(** The test [entry['sequence_name'].split('/')[0] in [..]]. *)
Definition is_redacted (sequence_name : string) : bool :=
  bool_decide (default "" (head (split "/" sequence_name))
               ∈ ["Wales"; "Scotland"; "Northern_Ireland"; "England"]).

(** The loop that sets [entry['anonymized_sequence_name']]. *)
Fixpoint anonymize_names (metadata_list : list (gmap string string))
    (random_names : list string) (draws : list nat)
  : option (result (list (gmap string string))) :=
  match metadata_list with
  | [] => Some (Ok [])
  | entry :: rest =>
      match getitem entry "sequence_name" with
      | Raise e => Some (Raise e)
      | Ok sequence_name =>
          let named :=
            if is_redacted sequence_name
            then fresh_name random_names draws
                   ≫= λ '(anonymous_name, draws'),
                     Some (anonymous_name, random_names ++ [anonymous_name],
                           draws')
            else Some (sequence_name, random_names, draws) in
          match named with
          | None => None
          | Some (name, random_names', draws') =>
              match anonymize_names rest random_names' draws' with
              | Some (Ok out) =>
                  Some (Ok (<["anonymized_sequence_name" := name]> entry
                            :: out))
              | other => other
              end
          end
      end
  end.

(** The list [new_columns]. *)
Definition new_columns (header : list string) : list string :=
  map (λ item, if String.eqb item "sequence_name"
               then "anonymized_sequence_name"
               else if String.eqb item "adm2" then "anonymized_admn2"
                    else item)
      header.

(** The dict [label_mappings], in insertion order. *)
Definition label_mappings (metadata_list : list (gmap string string))
  : result (ODict.odict string string) :=
  foldlM (λ m entry,
            sequence_name ← getitem entry "sequence_name";
            anonymized ← getitem entry "anonymized_sequence_name";
            if String.eqb sequence_name anonymized then Ok m
            else Ok (ODict.set sequence_name anonymized m))
         [] metadata_list.

Definition quoted (label : string) : list ascii :=
  chars ("'" +:+ label +:+ "'").

(** What is written once the entries are complete: the lines of
    [metadata_out] and the text of [tree_out]. *)
Definition write_files (header : list string)
    (metadata_list : list (gmap string string)) (tree : string)
  : result (list string * string) :=
  rows ← mapM (λ entry, values ← mapM (getitem entry) (new_columns header);
                        Ok (join "," values +:+ String "010"%char ""))
              metadata_list;
  mappings ← label_mappings metadata_list;
  Ok ((join "," header +:+ String "010"%char "") :: rows,
      str_of (foldl (λ tree '(old, new),
                       replace (quoted old) (quoted new) tree)
                    (chars tree) mappings)).

(** [anonymize_microreact], given the lines of [metadata_in], the text of
    [tree_in] and the numbers that [random.randint] returns. *)
Definition anonymize_microreact (metadata_in : list string)
    (tree_in : string) (draws : list nat)
  : option (result (list string * string)) :=
  match read_metadata metadata_in with
  | Raise e => Some (Raise e)
  | Ok (header, metadata_list) =>
      match anonymize_locations metadata_list with
      | Raise e => Some (Raise e)
      | Ok metadata_list =>
          match anonymize_names metadata_list [] draws with
          | None => None
          | Some (Raise e) => Some (Raise e)
          | Some (Ok metadata_list) =>
              Some (write_files header metadata_list tree_in)
          end
      end
  end.

(** The number of entries of the file whose [adm2] value is [v]. *)
Definition occurrences (v : string) (metadata_list : list (gmap string string))
  : nat :=
  length (filter (λ e, e !! "adm2" = Some v) metadata_list).

(** Two small files after reading: five entries with an empty [adm2]
    and one in ["Kent"]; five entries in ["Kent"] and one in ["Fife"]. *)
Definition entry_of (name adm2 : string) : gmap string string :=
  dict_of_pairs [("sequence_name", name); ("adm2", adm2)].

Definition mostly_unlabelled : list (gmap string string) :=
  [ entry_of "a" ""; entry_of "b" ""; entry_of "c" ""; entry_of "d" "";
    entry_of "e" ""; entry_of "f" "Kent" ].

Definition mostly_kent : list (gmap string string) :=
  [ entry_of "a" "Kent"; entry_of "b" "Kent"; entry_of "c" "Kent";
    entry_of "d" "Kent"; entry_of "e" "Kent"; entry_of "f" "Fife" ].

End Anonymize.

(* --------------------------------------------------------------------- *)
(** ** curate_lineages.py *)
(* --------------------------------------------------------------------- *)

Module Curate.
Import Py ODict.

Record taxon : Type := {
  id : string;
  old_lineage : string;
  acctrans : string
}.

Definition newline : ascii := "010"%char.

(** The reading loop of [make_taxon_objects]; [next(f)] skips the header. *)
Definition read_line (taxon_list : list taxon) (l : string)
  : result (list taxon) :=
  let toks := split "," (strip (Ascii.eqb newline) l) in
  country ← list_getitem toks 1;
  if String.eqb country "UK"
  then seq_name ← list_getitem toks 0;
       intro_name ← list_getitem toks 2;
       acctrans ← list_getitem toks 6;
       Ok (taxon_list ++ [ {| id := seq_name; old_lineage := intro_name;
                              acctrans := acctrans |} ])
  else Ok taxon_list.

Record tallies : Type := {
  taxon_list : list taxon;
  acc_name_counts : odict string (odict string nat);
  lin_acc_counts : odict string (odict string nat);
  acc_to_tax : odict string (list taxon)
}.

Definition make_tallies (taxa : list taxon) : tallies :=
  let acc_to_tax := foldl (λ d tax, append (acctrans tax) tax d) [] taxa in
  let acc_to_poss_lins :=
    foldl (λ d kv, foldl (λ d tax, append kv.1 (old_lineage tax) d) d kv.2)
          [] acc_to_tax in
  let lins_to_acc :=
    foldl (λ d kv, foldl (λ d lineage, append lineage kv.1 d) d kv.2)
          [] acc_to_poss_lins in
  {| taxon_list := taxa;
     acc_name_counts :=
       foldl (λ d kv, set kv.1 (Counter kv.2) d) [] acc_to_poss_lins;
     lin_acc_counts :=
       foldl (λ d kv, set kv.1 (Counter kv.2) d) [] lins_to_acc;
     acc_to_tax := acc_to_tax |}.

Definition make_taxon_objects (traits_file : list string) : result tallies :=
  match traits_file with
  | [] => Raise StopIteration
  | _ :: lines => taxa ← foldlM read_line [] lines; Ok (make_tallies taxa)
  end.

(** The dict [other_deserving] of one candidate: the other clusters whose
    most frequent proposal is [query_lin], with that proposal's count. *)
Definition other_deserving (acc query_lin : string)
    (acc_name_counts : odict string (odict string nat))
  : result (odict string nat) :=
  foldlM (λ d kv,
            top ← list_getitem (most_common kv.2) 0;
            if String.eqb query_lin top.1 && negb (String.eqb acc kv.1)
            then Ok (set kv.1 top.2 d)
            else Ok d)
         [] acc_name_counts.

(** One round [i] of the loop over the proposals of a cluster; the state is
    the variable [new_name]. *)
Definition try_candidate (acc : string) (poss_lins : odict string nat)
    (acc_name_counts : odict string (odict string nat))
    (new_name : option string) (i : nat) : result (option string) :=
  match new_name with
  | Some _ => Ok new_name
  | None =>
      cand ← list_getitem (most_common poss_lins) (i - 1);
      let query_lin := cand.1 in
      let count := cand.2 in
      if String.eqb query_lin "" then Ok None
      else
        others ← other_deserving acc query_lin acc_name_counts;
        let more_deserving :=
          (foldl (λ st kv, if st.2 <? kv.2 then (true, kv.2) else st)
                 (false, count) others).1 in
        if more_deserving then Ok None else Ok (Some query_lin)
  end.

Definition rename_one (acc_name_counts lin_acc_counts
                         : odict string (odict string nat))
    (st : odict string (list string) * list string)
    (kv : string * odict string nat)
  : result (odict string (list string) * list string) :=
  let '(acc_final_name_dict, new_names) := st in
  let '(acc, poss_lins) := kv in
  match poss_lins with
  | [] => Raise StopIteration
  | (relevant_lin, _) :: _ =>
      if (length poss_lins =? 1) && negb (String.eqb relevant_lin "")
         && (length (default [] (get relevant_lin lin_acc_counts)) =? 1)
      then Ok (append acc relevant_lin acc_final_name_dict, new_names)
      else if (length poss_lins =? 1) && String.eqb relevant_lin ""
      then Ok (append acc relevant_lin acc_final_name_dict, new_names)
      else
        found ← foldlM (try_candidate acc poss_lins acc_name_counts) None
                       (seq 1 (length poss_lins));
        let new_name := default "" found in
        Ok (append acc new_name acc_final_name_dict, new_names ++ [new_name])
  end.

Definition rename_lineages (acc_name_counts lin_acc_counts
                              : odict string (odict string nat))
  : result (odict string (list string) * list string) :=
  foldlM (rename_one acc_name_counts lin_acc_counts) ([], []) acc_name_counts.

(** [max(l, key=itemgetter(1))]: the first element of greatest count. *)
Definition max_by_count (l : list (string * nat)) : result (string * nat) :=
  match l with
  | [] => Raise ValueError
  | p :: l' => Ok (foldl (λ m q, if m.2 <? q.2 then q else m) p l')
  end.

(** The loop over [acc_name_counts[contender]] with its [break]; [new_name]
    is the variable of that name. *)
Fixpoint pick_other_option (options new_names : list string)
    (new_name : option string) : option string :=
  match options with
  | [] => new_name
  | other_option :: rest =>
      if negb (String.eqb other_option "")
         && negb (bool_decide (other_option ∈ new_names))
      then Some other_option
      else pick_other_option rest new_names (Some "")
  end.

Definition problem_lins (new_names : list string) : list string :=
  map fst (filter (λ nc : string * nat, 1 < nc.2 ∧ nc.1 ≠ "")
                  (Counter new_names)).

Definition contenders_of (lin : string)
    (acc_final_name_dict : odict string (list string))
    (lin_acc_counts : odict string (odict string nat))
  : result (list (string * nat)) :=
  foldlM (λ tuples al,
            l0 ← list_getitem al.2 0;
            if String.eqb lin l0
            then match get lin lin_acc_counts with
                 | Some counts =>
                     Ok (tuples ++ [(al.1, default 0 (get al.1 counts))])
                 | None => Raise TypeError
                 end
            else Ok tuples)
         [] acc_final_name_dict.

Definition reassign (new_names : list string)
    (acc_name_counts : odict string (odict string nat)) (winner : string)
    (st : odict string (list string) * option string) (contender : string)
  : result (odict string (list string) * option string) :=
  if String.eqb contender winner then Ok st
  else
    let new_name :=
      pick_other_option (keys (default [] (get contender acc_name_counts)))
                        new_names st.2 in
    match new_name with
    | None => Raise NameError
    | Some name => Ok (set contender [name] st.1, new_name)
    end.

Definition deal_with_issues (acc_final_name_dict : odict string (list string))
    (new_names : list string)
    (lin_acc_counts acc_name_counts : odict string (odict string nat))
  : result (odict string (list string)) :=
  problem_lin ← mapM (λ lin, contenders_of lin acc_final_name_dict
                                             lin_acc_counts)
                     (problem_lins new_names);
  st ← foldlM (λ st list_of_tuples,
                 winner ← max_by_count list_of_tuples;
                 foldlM (reassign new_names acc_name_counts winner.1) st
                        (map fst list_of_tuples))
              (acc_final_name_dict, None) problem_lin;
  Ok st.1.

(** The digits of a string of decimal digits in which single underscores
    may stand between two digits, as [int] accepts it. *)
Fixpoint grouped_digits (l : list ascii) : option (list ascii) :=
  match l with
  | [] => None
  | c :: r =>
      if is_digit c
      then match r with
           | [] => Some [c]
           | u :: r' =>
               if Ascii.eqb u "_" then cons c <$> grouped_digits r'
               else cons c <$> grouped_digits r
           end
      else None
  end.

(** [int(s)]: surrounding white space, an optional sign, decimal digits
    with single underscores between them. *)
Definition py_int (s : string) : result Z :=
  let t := chars (strip isspace s) in
  let signed :=
    match t with
    | c :: r => if Ascii.eqb c "-" then (true, r)
                else if Ascii.eqb c "+" then (false, r) else (false, t)
    | [] => (false, t)
    end in
  match grouped_digits signed.2 with
  | Some digits =>
      let n := Z.of_nat (int_of_digits digits) in
      Ok (if signed.1 then (- n)%Z else n)
  | None => Raise ValueError
  end.

(** [str(n)] *)
Definition py_str (n : Z) : string := NilEmpty.string_of_int (Z.to_int n).

Fixpoint insert_sorted (x : Z) (l : list Z) : list Z :=
  match l with
  | [] => [x]
  | y :: l' => if (x <=? y)%Z then x :: l else y :: insert_sorted x l'
  end.

Definition sorted (l : list Z) : list Z := foldr insert_sorted [] l.

Definition collect_used_name (used_names : list Z) (kv : string * list string)
  : result (list Z) :=
  v0 ← list_getitem kv.2 0;
  if String.eqb v0 "" then Ok used_names
  else n ← py_int (lstrip (one_of "UK") v0); Ok (used_names ++ [n]).

(** The body of the naming loop; the state is
    [(usable_names, full_list, acc_final)]. *)
Definition name_one (st : list Z * list Z * odict string string)
    (kv : string * list string)
  : result (list Z * list Z * odict string string) :=
  let '(usable_names, full_list, acc_final) := st in
  lin0 ← list_getitem kv.2 0;
  if String.eqb lin0 ""
  then match usable_names with
       | new_name_prep :: rest =>
           Ok (rest, full_list,
               set kv.1 ("UK" +:+ py_str new_name_prep) acc_final)
       | [] =>
           let new_name_prep := (Z.of_nat (length full_list) + 1)%Z in
           Ok ([], full_list ++ [new_name_prep],
               set kv.1 ("UK" +:+ py_str new_name_prep) acc_final)
       end
  else Ok (usable_names, full_list, set kv.1 lin0 acc_final).

Definition name_new_lineages (acc_final_name_dict : odict string (list string))
  : result (odict string string * odict Z nat) :=
  used_names ← foldlM collect_used_name [] acc_final_name_dict;
  let test_counter := Counter (sorted used_names) in
  let full_list := map Z.of_nat (seq 1 (length used_names)) in
  let usable_names :=
    filter (λ i, i ∉ used_names) full_list in
  st ← foldlM name_one (usable_names, full_list, []) acc_final_name_dict;
  Ok (st.2, test_counter).

(** [write_to_file]: the lines written to the output. *)
Definition write_to_file (acc_to_tax : odict string (list taxon))
    (acc_final : odict string string) : result (list string) :=
  new_tax_list ←
    foldlM (λ out kv,
              foldlM (λ out tax,
                        match get kv.1 acc_final with
                        | Some uk_lineage => Ok (out ++ [(tax, uk_lineage)])
                        | None => Raise KeyError
                        end) out kv.2)
           [] acc_to_tax;
  let for_counting_lin_size :=
    foldl (λ d tl, append tl.2 tl.1 d) [] new_tax_list in
  let lin_counts : odict string nat :=
    foldl (λ d kv, set kv.1 (length kv.2) d) [] for_counting_lin_size in
  let top_20 := map fst (take 20 (most_common lin_counts)) in
  Ok (("taxon,uk_lineage,acctrans,microreact_lineage" +:+ String newline "")
      :: map (λ tl : taxon * string,
                let '(tax, uk_lineage) := tl in
                if bool_decide (uk_lineage ∈ top_20)
                then id tax +:+ "," +:+ uk_lineage +:+ "," +:+ acctrans tax
                     +:+ "," +:+ uk_lineage +:+ String newline ""
                else id tax +:+ "," +:+ uk_lineage +:+ "," +:+ acctrans tax
                     +:+ ",other" +:+ String newline "")
             new_tax_list).

Definition assert (b : bool) : result unit :=
  if b then Ok tt else Raise AssertionError.

(** [curate_lineages]: the final labels and the lines of the output file. *)
Definition curate_lineages (traits_file : list string)
  : result (odict string string * list string) :=
  t ← make_taxon_objects traits_file;
  renamed ← rename_lineages (acc_name_counts t) (lin_acc_counts t);
  acc_final_name_dict ←
    deal_with_issues renamed.1 renamed.2 (lin_acc_counts t)
                     (acc_name_counts t);
  named ← name_new_lineages acc_final_name_dict;
  _ ← assert (forallb (λ kv : Z * nat, kv.2 =? 1) named.2);
  _ ← assert (forallb (λ kv : string * list string, length kv.2 =? 1)
                      acc_final_name_dict);
  out ← write_to_file (acc_to_tax t) named.1;
  Ok (named.1, out).

(** The reassignment of a stripped cluster as the specification words it:
    the first non-empty proposal, by decreasing frequency, that no cluster
    holds in the current assignment. *)
Definition first_unclaimed_by_frequency (poss_lins : odict string nat)
    (assigned : odict string (list string)) : string :=
  default ""
    (head (filter (λ lin, lin ≠ "" ∧ ¬ Exists (λ kv, lin ∈ kv.2) assigned)
                  (map fst (most_common poss_lins)))).

(** Example inputs: the header line and rows of a traits file. *)
Definition traits_header : string :=
  "taxon,country,uk_lineage,c3,c4,c5,acctrans" +:+ String newline "".

Definition traits_row (name lineage acc : string) : string :=
  name +:+ ",UK," +:+ lineage +:+ ",,,," +:+ acc +:+ String newline "".

(** One cluster that holds [UK2] and two clusters without a label. *)
Definition traits_two_unnamed : list string :=
  [ traits_header; traits_row "t1" "UK2" "A"; traits_row "t2" "" "B";
    traits_row "t3" "" "C" ].

(** Cluster [W] proposes [UK1] three times; cluster [L] proposes, in the
    order of its taxa, [UK1], [UK2], [UK3], [UK3], [UK1], [UK1]. *)
Definition traits_shared_label : list string :=
  [ traits_header;
    traits_row "w1" "UK1" "W"; traits_row "w2" "UK1" "W";
    traits_row "w3" "UK1" "W";
    traits_row "l1" "UK1" "L"; traits_row "l2" "UK2" "L";
    traits_row "l3" "UK3" "L"; traits_row "l4" "UK3" "L";
    traits_row "l5" "UK1" "L"; traits_row "l6" "UK1" "L" ].

End Curate.

(* --------------------------------------------------------------------- *)
(** ** gisaid_json_2_metadata.py *)
(* --------------------------------------------------------------------- *)

Module Gisaid.
Import Py.

Definition _fields_gisaid : list string :=
  [ "covv_accession_id"; "covv_virus_name"; "covv_location";
    "covv_collection_date"; "covv_add_host_info"; "covv_assembly_method";
    "covv_gender"; "covv_host"; "covv_passage"; "covv_patient_age";
    "covv_seq_technology"; "covv_specimen"; "covv_subm_date" ].

Definition _fields_edin : list string :=
  [ "edin_admin_0"; "edin_admin_1"; "edin_admin_2"; "edin_lineage";
    "edin_travel"; "edin_omitted"; "edin_date_stamp"; "edin_flag" ].

(** The module-level list [fields] as the module is loaded. *)
Definition fields : list string := ["edin_epi_week"; "edin_annotation"].

Definition required_fields : list string := _fields_gisaid ++ _fields_edin.

Definition nl : string := String "010"%char "".

(** The values that the parameter [warnings] of
    [get_admin_levels_from_json_dict] can hold: its default [True], or the
    module [warnings] whose function [warn] the body calls. *)
Inductive pyobj : Set :=
  | PyBool (b : bool)
  | PyModule_warnings.

Definition truthy (o : pyobj) : bool :=
  match o with
  | PyBool b => b
  | PyModule_warnings => true
  end.

(** The attribute [o.warn]: a [bool] has none. *)
Definition getattr_warn (o : pyobj) : result unit :=
  match o with
  | PyBool _ => Raise AttributeError
  | PyModule_warnings => Ok tt
  end.

(** [str(y).replace(',', '')] on the rendering [str(y)] of a value. *)
Definition remove_commas (y : string) : string :=
  str_of (replace (chars ",") [] (chars y)).

Definition fix_gisaid_json_dict (gisaid_json_dict : gmap string string)
  : gmap string string :=
  remove_commas <$> gisaid_json_dict.

(** The list [location_strings] after the padding loop. *)
Definition location_strings (covv_location : string) : list string :=
  let l := map (strip isspace) (split "/" covv_location) in
  l ++ replicate (4 - length l) "".

(** [country], [subdivision] and [subsubdivision] after the two
    reassignments; the list has four elements at least. *)
Definition derive_levels (location_strings : list string)
  : string * string * string :=
  let item i := default "" (location_strings !! i) in
  let levels := (item 1, item 2, item 3) in
  let levels :=
    if existsb (λ x, String.eqb x levels.1.1)
               ["England"; "Northern Ireland"; "Scotland"; "Wales"]
    then ("United Kingdom", item 1, item 2) else levels in
  if existsb (λ x, String.eqb x levels.1.1) ["Alaska"]
  then ("USA", item 1, item 2) else levels.

Definition known_exceptions : list string :=
  [ "Iran"; "South Korea"; "Russia"; "Korea";
    "Democratic Republic of the Congo" ].

(** The two branches on [len(d['edin_flag'])] that add a flag code. *)
Definition add_flag (code : string) (d : gmap string string)
  : result (gmap string string) :=
  flag ← getitem d "edin_flag";
  if String.length flag =? 0 then Ok (<["edin_flag" := code]> d)
  else Ok (<["edin_flag" := flag +:+ ":" +:+ code]> d).

Definition rename_country (country : string) : string :=
  let country := if String.eqb country "United Kingdom" then "UK"
                 else country in
  let country := if String.eqb country "Korea" then "South Korea"
                 else country in
  if String.eqb country "Democratic Republic of the Congo" then "DRC"
  else country.

(** The country as it stands when it is checked. *)
Definition derived_country (covv_location : string) : string :=
  (derive_levels (location_strings covv_location)).1.1.

Section lookup.

(** [pycountry.countries.lookup(country)] succeeds ([true]) or raises
    [LookupError] ([false]). *)
Variable lookup : string → bool.

(** The block guarded by [if warnings:]. *)
Definition check_country (warnings : pyobj) (country : string)
    (gisaid_json_dict : gmap string string) : result (gmap string string) :=
  if truthy warnings
  then if forallb (λ x, negb (String.eqb country x)) known_exceptions
       then if lookup country then Ok gisaid_json_dict
            else _ ← getattr_warn warnings;
                 _ ← getitem gisaid_json_dict "covv_accession_id";
                 add_flag "check_country" gisaid_json_dict
       else Ok gisaid_json_dict
  else Ok gisaid_json_dict.

Definition get_admin_levels_from_json_dict
    (gisaid_json_dict : gmap string string) (warnings : pyobj)
  : result (gmap string string) :=
  covv_location ← getitem gisaid_json_dict "covv_location";
  let levels := derive_levels (location_strings covv_location) in
  d ← check_country warnings levels.1.1 gisaid_json_dict;
  Ok (<["edin_admin_2" := levels.2]>
        (<["edin_admin_1" := levels.1.2]>
           (<["edin_admin_0" := rename_country levels.1.1]> d))).

End lookup.

Definition expand_dict (dict : gmap string string)
    (fields_list_required fields_list_optional : list string)
  : gmap string string :=
  let add d x := match d !! x with
                 | Some _ => d
                 | None => <[x := ""]> d
                 end in
  foldl add (foldl add dict fields_list_required) fields_list_optional.

(** The dict [d] built from one data line [l] of the registry. *)
Definition csv_record (keys fields_list_required fields_list_optional
                         l : list string) : gmap string string :=
  expand_dict (dict_of_pairs (zip keys l))
              fields_list_required fields_list_optional.

(** One data line of the existing registry; the state is
    [(record_order, old_records)]. *)
Definition read_csv_line (keys fields_list_required fields_list_optional
                            : list string)
    (st : list string * gmap string (gmap string string)) (line : string)
  : result (list string * gmap string (gmap string string)) :=
  let l := split "," (strip isspace line) in
  if negb (length l =? length keys) then Raise AttributeError
  else
    let d := csv_record keys fields_list_required fields_list_optional l in
    ID ← getitem d "covv_accession_id";
    Ok (st.1 ++ [ID], <[ID := d]> st.2).

Definition get_csv_order_and_record_dict (csv_file : list string)
    (fields_list_required fields_list_optional : list string)
  : result (list string * gmap string (gmap string string)) :=
  match csv_file with
  | [] => Ok ([], ∅)
  | first :: lines =>
      foldlM (read_csv_line (split "," (strip isspace first))
                            fields_list_required fields_list_optional)
             ([], ∅) lines
  end.

(** The dict [d] built from one line of the dump, given as the dict that
    [json.loads] returns with every value as its [str]. *)
Definition json_record (fields_list_required fields_list_optional
                          : list string) (jsonObj : gmap string string)
  : gmap string string :=
  expand_dict (fix_gisaid_json_dict jsonObj)
              fields_list_required fields_list_optional.

(** The value that [ID = d['covv_accession_id']] reads in both reading
    loops; the key is there once the dict has been expanded. *)
Definition accession_id (d : gmap string string) : string :=
  default "" (d !! "covv_accession_id").

Definition read_json_line (fields_list_required fields_list_optional
                             : list string)
    (st : list string * gmap string (gmap string string))
    (jsonObj : gmap string string)
  : result (list string * gmap string (gmap string string)) :=
  let d := json_record fields_list_required fields_list_optional jsonObj in
  ID ← getitem d "covv_accession_id";
  Ok (st.1 ++ [ID], <[ID := d]> st.2).

Definition get_json_order_and_record_dict (json_file : list (gmap string string))
    (fields_list_required fields_list_optional : list string)
  : result (list string * gmap string (gmap string string)) :=
  foldlM (read_json_line fields_list_required fields_list_optional)
         ([], ∅) json_file.

(** [\d{4}-\d{2}-\d{2}] *)
Definition r_date : matcher := λ s,
  match s with
  | y1 :: y2 :: y3 :: y4 :: h1 :: m1 :: m2 :: h2 :: d1 :: d2 :: _ =>
      if forallb is_digit [y1; y2; y3; y4; m1; m2; d1; d2]
         && forallb (Ascii.eqb "-") [h1; h2]
      then Some 10 else None
  | _ => None
  end.

Definition check_gisaid_date (dict : gmap string string)
  : result (gmap string string) :=
  date ← getitem dict "covv_collection_date";
  match search r_date (chars date) with
  | Some _ => Ok dict
  | None => add_flag "check_date" dict
  end.

(** [lineage_dict] maps an identifier to the value under ['lineage']. *)
Definition update_edin_lineage_field (dict : gmap string string)
    (lineage_dict : gmap string string) : result (gmap string string) :=
  ID ← getitem dict "covv_accession_id";
  match lineage_dict !! ID with
  | Some lineage => Ok (<["edin_lineage" := lineage]> dict)
  | None =>
      name ← getitem dict "covv_virus_name";
      ID2 ← list_getitem (split "/" name) 2;
      match lineage_dict !! ID2 with
      | Some lineage => Ok (<["edin_lineage" := lineage]> dict)
      | None => Ok dict
      end
  end.

(** [omit_set] is a set, or [False] when no omission file was given; both
    the empty set and [False] skip the test. *)
Definition update_edin_omitted_field (dict : gmap string string)
    (omit_set : gset string) : result (gmap string string) :=
  if bool_decide (omit_set = ∅) then Ok dict
  else ID ← getitem dict "covv_accession_id";
       if bool_decide (ID ∈ omit_set)
       then Ok (<["edin_omitted" := "True"]> dict)
       else Ok dict.

Definition update_edin_date_stamp_field (mydate : string)
    (dict : gmap string string) : gmap string string :=
  <["edin_date_stamp" := mydate]> dict.

Definition get_one_line (dict : gmap string string) (fields_list : list string)
  : result string :=
  values ← mapM (getitem dict) fields_list;
  Ok (join "," values +:+ nl).

(** The text written by [write_output], one string per call of [write]. *)
Definition write_output (new_records_list : list string)
    (new_records_dict : gmap string (gmap string string))
    (old_records_list : list string)
    (old_records_dict : gmap string (gmap string string))
    (fields_list : list string) : result (list string) :=
  old_lines ← mapM (λ record, do ← getitem old_records_dict record;
                              get_one_line do fields_list)
                   old_records_list;
  new_lines ← mapM (λ record, dn ← getitem new_records_dict record;
                              get_one_line dn fields_list)
                   new_records_list;
  Ok ((join "," fields_list +:+ nl) :: old_lines ++ new_lines).

(** The keys of [{x: .. for x in l}], in order of first occurrence. *)
Fixpoint dict_keys (seen l : list string) : list string :=
  match l with
  | [] => []
  | x :: l' => if bool_decide (x ∈ seen) then dict_keys seen l'
               else x :: dict_keys (x :: seen) l'
  end.

(** A comprehension [{x: f(all_records_dict[x]) for x in keys}] whose [f]
    changes the record in place and returns it: the new dict holds the
    records of [all_records_dict] themselves, so the model keeps the one
    store and the list of keys. *)
Definition update_all (f : gmap string string → result (gmap string string))
    (keys : list string) (all_records_dict : gmap string (gmap string string))
  : result (gmap string (gmap string string)) :=
  foldlM (λ store x, d ← getitem store x; d' ← f d; Ok (<[x := d']> store))
         all_records_dict keys.

(** The header check and the optional columns found in the registry. *)
Definition extend_fields (csv_header : list string) : list string :=
  foldl (λ fields x,
           if bool_decide (x ∈ required_fields) then fields
           else if bool_decide (x ∈ fields) then fields
           else fields ++ [x])
        fields csv_header.

(** The branch on [args_csv], which is [None] for ['False']: the list
    [fields] and the pair [old_records] that it leaves. *)
Definition load_registry (args_csv : option (list string))
  : result (list string * (list string * gmap string (gmap string string))) :=
  match args_csv with
  | Some csv =>
      first ← match csv with
              | [] => Raise StopIteration
              | first :: _ => Ok first
              end;
      let csv_header := split "," (strip isspace first) in
      if forallb (λ x, bool_decide (x ∈ csv_header)) required_fields
      then let fields := extend_fields csv_header in
           old_records ←
             get_csv_order_and_record_dict csv required_fields fields;
           Ok (fields, old_records)
      else Raise SystemExit
  | None => Ok (fields, ([], ∅))
  end.

Section converter.

Variable lookup : string → bool.

(** Modelled from the spec: [get_travel_history] of the module
    [datafunk.travel_history], which is not part of the sources at hand;
    it takes one record and returns that record with [edin_travel] (and
    possibly [edin_flag]) set. *)
Variable get_travel_history : gmap string string → gmap string string.

(** [str(datetime.date(datetime.now()))] *)
Variable mydate : string.

(** [gisaid_json_2_metadata]; [omitted_IDs] the identifiers parsed from the omission files and
    [args_lineages] the table read from the lineage file, if any. *)
Definition gisaid_json_2_metadata (json : list (gmap string string))
    (args_csv : option (list string)) (omitted_IDs : gset string)
    (args_lineages : option (gmap string string)) : result (list string) :=
  old ← load_registry args_csv;
  let fields := old.1 in
  let old_records_list := old.2.1 in
  let old_records_dict := old.2.2 in
  all_records ← get_json_order_and_record_dict json required_fields fields;
  let all_records_list := all_records.1 in
  let new_records_list :=
    filter (λ x, x ∉ old_records_list) all_records_list in
  let keys := dict_keys [] new_records_list in
  store ← update_all (λ d, update_edin_omitted_field d omitted_IDs)
                     keys all_records.2;
  store ← update_all (λ d, Ok (update_edin_date_stamp_field mydate d))
                     keys store;
  store ← update_all (λ d, get_admin_levels_from_json_dict lookup d
                                                           (PyBool true))
                     keys store;
  store ← update_all check_gisaid_date keys store;
  store ← update_all (λ d, Ok (get_travel_history d)) keys store;
  store ← match args_lineages with
          | Some lineages =>
              update_all (λ d, update_edin_lineage_field d lineages)
                         keys store
          | None => Ok store
          end;
  write_output new_records_list store old_records_list old_records_dict
               (_fields_edin ++ fields ++ _fields_gisaid).

(** The updates of one new record, in the order in which the converter
    applies them to all new records. *)
Definition enrich (omitted_IDs : gset string)
    (args_lineages : option (gmap string string)) (d : gmap string string)
  : result (gmap string string) :=
  d ← update_edin_omitted_field d omitted_IDs;
  d ← Ok (update_edin_date_stamp_field mydate d);
  d ← get_admin_levels_from_json_dict lookup d (PyBool true);
  d ← check_gisaid_date d;
  d ← Ok (get_travel_history d);
  match args_lineages with
  | Some lineages => update_edin_lineage_field d lineages
  | None => Ok d
  end.

(** The output row of a new record [d] as read from the dump. *)
Definition new_row (omitted_IDs : gset string)
    (args_lineages : option (gmap string string)) (fields : list string)
    (d : gmap string string) : result string :=
  d' ← enrich omitted_IDs args_lineages d;
  get_one_line d' (_fields_edin ++ fields ++ _fields_gisaid).

End converter.

(** *** The two side files *)




(** [get_lineage_info]; the table keeps, for every identifier, the value
    under ['lineage'] of the dict that the function stores.  The first
    line is read as a row like every other line. *)
Definition get_lineage_info (lineage_file : list string)
  : result (gmap string string) :=
  foldlM (λ myDict line,
            let l := split "," (rstrip isspace line) in
            taxon ← list_getitem l 0;
            ID ← list_getitem l 1;
            lineage ← list_getitem l 2;
            Ok (<[ID := lineage]> myDict))
         ∅ lineage_file.

(** *** Example inputs *)

(** A stand-in for the country lookup that knows three names. *)
Definition lookup_three (country : string) : bool :=
  bool_decide (country ∈ ["United Kingdom"; "China"; "USA"]).

(** A travel-history step that leaves the record as it is. *)
Definition no_travel_history (d : gmap string string) : gmap string string :=
  d.

Definition json_line (ID name location date : string) : gmap string string :=
  {[ "covv_accession_id" := ID; "covv_virus_name" := name;
     "covv_location" := location; "covv_collection_date" := date ]}.

(** A dump of two records, and a dump in which the identifier of the
    first line comes again on the third line, with another date. *)
Definition dump_two : list (gmap string string) :=
  [ json_line "EPI_ISL_000001" "hCoV-19/England/A/2020"
              "Europe / United Kingdom / England" "2020-03-01";
    json_line "EPI_ISL_000002" "hCoV-19/Wuhan/B/2020"
              "Asia / China / Hubei, Wuhan" "2020-01" ].

Definition dump_repeated : list (gmap string string) :=
  [ json_line "EPI_ISL_000002" "hCoV-19/Wuhan/B/2020"
              "Asia / China / Hubei, Wuhan" "2020-01";
    json_line "EPI_ISL_000001" "hCoV-19/England/A/2020"
              "Europe / United Kingdom / England" "2020-03-01";
    json_line "EPI_ISL_000002" "hCoV-19/Wuhan/B/2020"
              "Asia / China / Hubei, Wuhan" "2020-01-20" ].

(** A dump in which one identifier comes twice and the name of the virus
    has no third token, and a registry whose header lacks most of the
    mandatory columns. *)
Definition dump_short_name : list (gmap string string) :=
  [ json_line "EPI_ISL_000005" "Wuhan-Hu-1" "Asia / China" "2020-01-01";
    json_line "EPI_ISL_000005" "Wuhan-Hu-1" "Asia / China" "2020-01-02" ].



Definition registry_without_columns : list string :=
  [ "covv_accession_id,covv_virus_name" +:+ nl;
    "EPI_ISL_000009,hCoV-19/Wuhan/Z/2020" +:+ nl ].

End Gisaid.

(* ===================================================================== *)
(** * Part II: lemmas and theorems                                        *)
(* ===================================================================== *)

(** ** The result monad *)

Section result_lemmas.
Context {A B : Type} (f : A → result B).

Lemma mapM_Ok_Forall2 (l : list A) (k : list B) :
  mapM f l = Ok k ↔ Forall2 (λ x y, f x = Ok y) l k.
Proof.
  revert k. induction l as [|x l IH]; intros k; simpl.
  - split.
    + intros [= <-]. constructor.
    + intros H. inversion H. reflexivity.
  - split.
    + destruct (f x) as [y|e] eqn:Hx; simpl; [|discriminate].
      destruct (mapM f l) as [k'|e] eqn:Hl; simpl; [|discriminate].
      intros [= <-]. constructor; [assumption|]. by apply IH.
    + intros H. inversion H as [|? y ? k' Hx Hl]; subst.
      rewrite Hx. simpl. apply IH in Hl. rewrite Hl. reflexivity.
Qed.

Lemma mapM_Ok_total (l : list A) :
  Forall (λ x, is_Ok (f x)) l → ∃ k, mapM f l = Ok k.
Proof.
  induction 1 as [|x l [y Hy] _ [k Hk]]; simpl.
  - by eexists.
  - rewrite Hy. simpl. rewrite Hk. by eexists.
Qed.

Lemma mapM_Ok_spec (P : A → B → Prop) (l : list A) :
  Forall (λ x, ∃ y, f x = Ok y ∧ P x y) l →
  ∃ k, mapM f l = Ok k ∧ Forall2 P l k.
Proof.
  induction 1 as [|x l (y & Hy & HP) _ (k & Hk & HF)]; simpl.
  - exists []. split; [done|constructor].
  - exists (y :: k). rewrite Hy. simpl. rewrite Hk. split; [done|].
    by constructor.
Qed.

Lemma mapM_Ok_length (l : list A) (k : list B) :
  mapM f l = Ok k → length l = length k.
Proof. intros H. apply mapM_Ok_Forall2 in H. by eapply Forall2_length. Qed.

Lemma mapM_Ok_lookup (l : list A) (k : list B) (i : nat) (x : A) :
  mapM f l = Ok k → l !! i = Some x → ∃ y, k !! i = Some y ∧ f x = Ok y.
Proof.
  intros H Hi. apply mapM_Ok_Forall2 in H.
  destruct (Forall2_lookup_l _ _ _ _ _ H Hi) as (y & Hy & Hf). eauto.
Qed.
End result_lemmas.

(** ** sam_2_fasta.py *)

Module SamFacts.
Import Py Sam.

(** *** Character order *)

Lemma isalpha_above_gap (c : ascii) : isalpha c = true → ord gap < ord c.
Proof.
  unfold isalpha, between. change (ord gap) with 45.
  rewrite !orb_true_iff, !andb_true_iff, !Nat.leb_le, !Nat.eqb_eq. lia.
Qed.

Lemma gap_above_star : ord star < ord gap.
Proof. vm_compute. lia. Qed.

Lemma max_char_spec (c : ascii) (l : list ascii) :
  max_char c l ∈ c :: l ∧ ∀ x, x ∈ c :: l → ord x ≤ ord (max_char c l).
Proof.
  unfold max_char. revert c. induction l as [|a l IH]; intros c; simpl.
  - split; [left|]. intros x Hx. apply list_elem_of_singleton in Hx. by subst.
  - destruct (IH (if ord c <? ord a then a else c)) as [Hin Hmax].
    split.
    + apply elem_of_cons in Hin as [->|Hin].
      * destruct (ord c <? ord a); [right; left | left].
      * by do 2 right.
    + intros x Hx.
      assert (ord c ≤ ord (if ord c <? ord a then a else c)
              ∧ ord a ≤ ord (if ord c <? ord a then a else c)) as [Hc Ha].
      { destruct (Nat.ltb_spec (ord c) (ord a)); lia. }
      pose proof (Hmax _ (list_elem_of_here _ _)) as Hm.
      apply elem_of_cons in Hx as [->|Hx]; [lia|].
      apply elem_of_cons in Hx as [->|Hx]; [lia|].
      apply Hmax. by right.
Qed.

(** *** One line *)

Lemma get_one_string_length (l : sam_line) (rlen : Z) (s : list ascii) :
  get_one_string l rlen = Ok (Some s) → (rlen ≤ Z.of_nat (length s))%Z.
Proof.
  unfold get_one_string. destruct (POS l <? 0)%Z; [discriminate|].
  destruct (foldlM _ _ _) as [st|e]; simpl; [|discriminate].
  intros [= <-]. rewrite length_app, length_replicate. lia.
Qed.

(** *** Columns *)

Lemma foldl_min_le (ls : list (list ascii)) (m n : nat) :
  n ≤ m → Forall (λ s, n ≤ length s) ls →
  n ≤ foldl (λ m x, Nat.min m (length x)) m ls.
Proof.
  revert m. induction ls as [|s ls IH]; intros m Hm Hall; simpl; [done|].
  inversion Hall; subst. apply IH; [lia|done].
Qed.

Lemma column_Forall2 (lists : list (list ascii)) (j : nat) :
  Forall (λ s, j < length s) lists →
  Forall2 (λ s c, s !! j = Some c) lists (column lists j).
Proof.
  unfold column. induction 1 as [|s ls Hs _ IH]; simpl; [constructor|].
  destruct (lookup_lt_is_Some_2 s j Hs) as [c Hc].
  rewrite Hc. simpl. by constructor.
Qed.

Lemma zip_star_lookup (lists : list (list ascii)) (n j : nat) :
  lists ≠ [] → Forall (λ s, n ≤ length s) lists → j < n →
  zip_star lists !! j = Some (column lists j).
Proof.
  intros Hne Hall Hj. destruct lists as [|l ls]; [done|].
  unfold zip_star. inversion Hall; subst.
  rewrite list_lookup_fmap, lookup_seq_lt; [done|].
  eapply Nat.lt_le_trans; [exact Hj|]. by apply foldl_min_le.
Qed.

Lemma zip_star_nonempty_columns (lists : list (list ascii)) :
  lists ≠ [] → Forall (λ site, site ≠ []) (zip_star lists).
Proof.
  intros Hne. destruct lists as [|l ls]; [done|].
  unfold zip_star. apply Forall_fmap, Forall_forall. intros j Hj.
  apply elem_of_seq in Hj as [_ Hj]. simpl in Hj.
  assert (foldl (λ m x, Nat.min m (length x)) (length l) ls ≤ length l) as Hle.
  { clear. generalize (length l). induction ls as [|s ls IH]; intros m; simpl;
      [lia|]. etrans; [apply IH|]. lia. }
  unfold column. simpl.
  destruct (lookup_lt_is_Some_2 l j) as [c Hc]; [lia|]. by rewrite Hc.
Qed.

Lemma check_site_is_Ok (site : list ascii) :
  site ≠ [] → is_Ok (check_and_get_flattened_site site).
Proof.
  intros Hne. unfold check_and_get_flattened_site.
  destruct (1 <? _); [by eexists|]. destruct site; [done|by eexists].
Qed.

Lemma mapM_list_of_Some (strings : list (list ascii)) :
  mapM list_of (map Some strings) = Ok strings.
Proof. apply mapM_Ok_Forall2. induction strings; constructor; done. Qed.

End SamFacts.

Module SamLength.
Import Py Sam SamFacts.

Lemma cigar_fun_advance (op : list ascii) (f : cigar_fun) :
  operation_key op = Ok f →
  ∀ q r n seq,
    (f q r n seq).1.2 = r + (f 0 0 n []).1.2
    ∧ length (f q r n seq).2 ≤ (f 0 0 n []).1.2.
Proof.
  destruct op as [|c [|? ?]]; simpl; try discriminate.
  unfold lambda_dict_getitem, lambda_dict. simpl.
  repeat (case_decide; simpl;
          [intros [= <-]; intros; simpl; unfold slice;
           rewrite ?length_take, ?length_replicate; split; lia|]).
  discriminate.
Qed.

Lemma build_length (seq : list ascii) (ops : list (list ascii * nat))
    (new_seq : list ascii) (q r : nat) :
  Forall (λ o, is_Ok (operation_key o.1)) ops →
  ∃ st, foldlM (apply_operation seq) (new_seq, q, r) ops = Ok st
        ∧ st.2 = r + sum_list (map ref_consumed ops)
        ∧ length st.1.1 ≤ length new_seq + sum_list (map ref_consumed ops)
        ∧ ∃ ext, st.1.1 = new_seq ++ ext.
Proof.
  intros Hall. revert new_seq q r.
  induction Hall as [|o ops [f Hf] _ IH]; intros new_seq q r; simpl.
  - eexists. split; [done|]. simpl. split; [lia|]. split; [lia|].
    exists []. by rewrite app_nil_r.
  - rewrite Hf. simpl.
    destruct (cigar_fun_advance _ _ Hf q r o.2 seq) as [Hr Hl].
    destruct (f q r o.2 seq) as [[q' r'] ext] eqn:Hfq. simpl in *.
    destruct (IH (new_seq ++ ext) q' r') as (st & Hst & Hr' & Hl' & ext' & He).
    exists st. split; [exact Hst|].
    assert (ref_consumed o = (f 0 0 o.2 []).1.2) as ->
      by (unfold ref_consumed; by rewrite Hf).
    rewrite length_app in Hl'. split; [lia|]. split; [lia|].
    exists (ext ++ ext'). by rewrite He, app_assoc.
Qed.

(** The length invariant of [get_one_string]: when every parsed operation
    is a key of [lambda_dict] and the reference bases they consume end
    within [rlen], the string starts with [POS] sentinels and has exactly
    [rlen] characters. *)
Lemma get_one_string_exact_length (l : sam_line) (rlen : Z) :
  (0 ≤ POS l)%Z →
  Forall (λ o, is_Ok (operation_key o.1))
         (get_sam_cigar_operations (CIGAR l)) →
  (POS l + Z.of_nat (sum_list (map ref_consumed
                       (get_sam_cigar_operations (CIGAR l)))) ≤ rlen)%Z →
  ∃ s rest, get_one_string l rlen = Ok (Some s)
            ∧ s = replicate (Z.to_nat (POS l)) star ++ rest
            ∧ Z.of_nat (length s) = rlen.
Proof.
  intros Hpos Hops Hsum. unfold get_one_string.
  destruct (Z.ltb_spec (POS l) 0); [lia|].
  destruct (build_length (SEQ l) _ (replicate (Z.to_nat (POS l)) star)
              0 (Z.to_nat (POS l)) Hops)
    as (st & -> & _ & Hl & ext & He).
  simpl. rewrite length_replicate in Hl.
  eexists _, _. split; [reflexivity|]. split.
  - rewrite He, <- app_assoc. reflexivity.
  - rewrite length_app, length_replicate. lia.
Qed.

End SamLength.

Module SamTheorems.
Import Py Sam SamFacts.

(** C7, amended.  In a block of two or more reads that all yield a string
    (the position of each is not negative and each operation found in its
    CIGAR string has an entry in [lambda_dict]), every reference column [j < rlen] of the merged sequence [seq_flat] is ['&']
    when more than one read contributes an alphabetic character there, and
    otherwise a contributed character of maximal ordinal; every alphabetic
    character is above the gap ['-'], which is above the sentinel ['*'].
    [get_seq_from_block] returns the normalization of that [seq_flat]. *)
Theorem merged_site_ambiguous_or_max
    (sam_block : list sam_line) (rlen : Z) (strings : list (list ascii)) :
  2 ≤ length sam_block →
  Forall2 (λ l s, get_one_string l rlen = Ok (Some s)) sam_block strings →
  ∃ seq_flat,
    flatten_block (map Some strings) = Ok seq_flat
    ∧ get_seq_from_block sam_block rlen = Ok (swap_in_gaps_Ns seq_flat)
    ∧ (∀ j, (Z.of_nat j < rlen)%Z →
         ∃ site merged,
           Forall2 (λ s c, s !! j = Some c) strings site
           ∧ seq_flat !! j = Some merged
           ∧ (1 < length (filter (λ x, isalpha x = true) site) →
              merged = "&"%char)
           ∧ (length (filter (λ x, isalpha x = true) site) ≤ 1 →
              merged ∈ site ∧ ∀ x, x ∈ site → ord x ≤ ord merged))
    ∧ (∀ c, isalpha c = true → ord gap < ord c)
    ∧ ord star < ord gap.
Proof.
  intros Hlen Hall.
  assert (length strings = length sam_block) as Hlen'
    by (symmetry; by eapply Forall2_length).
  assert (strings ≠ []) as Hne by (intros ->; simpl in Hlen'; lia).
  assert (Forall (λ s, Z.to_nat rlen ≤ length s) strings) as Hlong.
  { apply Forall_forall. intros s Hs.
    apply list_elem_of_lookup in Hs as [i Hi].
    destruct (Forall2_lookup_r _ _ _ _ _ Hall Hi) as (l & _ & Hl).
    apply get_one_string_length in Hl. lia. }
  destruct (mapM_Ok_total check_and_get_flattened_site (zip_star strings))
    as [seq_flat Hflat].
  { eapply Forall_impl; [by apply zip_star_nonempty_columns|].
    intros site. apply check_site_is_Ok. }
  assert (flatten_block (map Some strings) = Ok seq_flat) as Hfb.
  { unfold flatten_block. rewrite mapM_list_of_Some. exact Hflat. }
  exists seq_flat. split; [exact Hfb|]. split; [|split].
  - unfold get_seq_from_block.
    assert (mapM (λ l, get_one_string l rlen) sam_block
            = Ok (map Some strings)) as ->.
    { apply mapM_Ok_Forall2. clear -Hall.
      induction Hall; constructor; done. }
    simpl. destruct strings as [|a [|b rest]]; simpl in *; try lia.
    simpl in Hfb. by rewrite Hfb.
  - intros j Hj.
    assert (j < Z.to_nat rlen) as Hj' by lia.
    pose proof (zip_star_lookup strings _ j Hne Hlong Hj') as Hcol.
    destruct (mapM_Ok_lookup _ _ _ _ _ Hflat Hcol) as (merged & Hm & Hsite).
    exists (column strings j), merged. split; [|split; [exact Hm|]].
    { apply column_Forall2. eapply Forall_impl; [exact Hlong|].
      simpl. intros; lia. }
    unfold check_and_get_flattened_site in Hsite. split.
    + intros Hamb. apply Nat.ltb_lt in Hamb. rewrite Hamb in Hsite.
      by injection Hsite as <-.
    + intros Hone.
      destruct (Nat.ltb_spec 1
        (length (filter (λ x, isalpha x = true) (column strings j))));
        [lia|].
      destruct (column strings j) as [|c rest]; [discriminate|].
      injection Hsite as <-. apply max_char_spec.
  - split; [apply isalpha_above_gap | apply gap_above_star].
Qed.

Lemma merged_site_ambiguous_or_max_witness :
  ∃ seq_flat,
    flatten_block (map Some [chars "AC-**"; chars "*GT-*"]) = Ok seq_flat
    ∧ get_seq_from_block
        [ {| POS := 0; CIGAR := chars "2M1D"; SEQ := chars "AC" |};
          {| POS := 1; CIGAR := chars "2M1D"; SEQ := chars "GT" |} ] 5
      = Ok (swap_in_gaps_Ns seq_flat)
    ∧ (∀ j, (Z.of_nat j < 5)%Z →
         ∃ site merged,
           Forall2 (λ s c, s !! j = Some c)
             [chars "AC-**"; chars "*GT-*"] site
           ∧ seq_flat !! j = Some merged
           ∧ (1 < length (filter (λ x, isalpha x = true) site) →
              merged = "&"%char)
           ∧ (length (filter (λ x, isalpha x = true) site) ≤ 1 →
              merged ∈ site ∧ ∀ x, x ∈ site → ord x ≤ ord merged))
    ∧ (∀ c, isalpha c = true → ord gap < ord c)
    ∧ ord star < ord gap.
Proof.
  apply (merged_site_ambiguous_or_max
           [ {| POS := 0; CIGAR := chars "2M1D"; SEQ := chars "AC" |};
             {| POS := 1; CIGAR := chars "2M1D"; SEQ := chars "GT" |} ] 5
           [chars "AC-**"; chars "*GT-*"]).
  - simpl. lia.
  - repeat constructor.
Defined.

(** C7 as stated fails on the blocks that hold a read without a string.
    For an unmapped read [get_one_string] returns [None], which
    [get_seq_from_block] does not filter: [list(None)] raises [TypeError]
    and no column is merged.  A read whose CIGAR string has an operation
    without an entry in [lambda_dict] stops the block with [KeyError]. *)
Lemma unmapped_read_stops_merge :
  get_one_string {| POS := -1; CIGAR := chars "*"; SEQ := chars "AC" |} 5
  = Ok None
  ∧ get_seq_from_block
      [ {| POS := -1; CIGAR := chars "*"; SEQ := chars "AC" |};
        {| POS := 0; CIGAR := chars "2M"; SEQ := chars "AC" |} ] 5
    = Raise TypeError
  ∧ get_seq_from_block
      [ {| POS := 0; CIGAR := chars "2M"; SEQ := chars "AC" |};
        {| POS := 0; CIGAR := chars "2B"; SEQ := chars "AC" |} ] 5
    = Raise KeyError
  ∧ ¬ (∀ (sam_block : list sam_line) (rlen : Z),
         2 ≤ length sam_block →
         ∃ seq, get_seq_from_block sam_block rlen = Ok seq).
Proof.
  split; [vm_compute; reflexivity|].
  split; [vm_compute; reflexivity|].
  split; [vm_compute; reflexivity|].
  intros H.
  destruct (H [ {| POS := -1; CIGAR := chars "*"; SEQ := chars "AC" |};
                {| POS := 0; CIGAR := chars "2M"; SEQ := chars "AC" |} ]
              5%Z) as [seq Hseq]; [simpl; lia|].
  vm_compute in Hseq. discriminate.
Qed.

(** The examples of the normalizer given with the specification. *)
Example swap_internal_run :
  swap_in_gaps_Ns (chars "AA***AA") = chars "AANNNAA".
Proof. vm_compute. reflexivity. Qed.

Example swap_leading_run : swap_in_gaps_Ns (chars "***AA") = chars "---AA".
Proof. vm_compute. reflexivity. Qed.

Example swap_trailing_run : swap_in_gaps_Ns (chars "AA***") = chars "AA---".
Proof. vm_compute. reflexivity. Qed.

(** C3.  Two sentinel runs that share a flanking letter: [findall] returns
    matches that do not overlap, so the second run of ["A*A*A"], which lies
    strictly between two letters, is found by no expression and stays a
    sentinel; the run would have to become ['N'], giving ["ANANA"]. *)
Theorem swap_in_gaps_Ns_misses_adjacent_run :
  findall r_internal (chars "A*A*A") = [chars "A*A"]
  ∧ swap_in_gaps_Ns (chars "A*A*A") = chars "ANA*A"
  ∧ swap_in_gaps_Ns (chars "A*A*A") ≠ chars "ANANA".
Proof. vm_compute. split; [|split]; [reflexivity..|discriminate]. Qed.

(** C9.  The operation ['='] consumes the reference and has an entry in
    [lambda_dict], but the expression that splits the CIGAR string only
    accepts upper-case letters: the operation of ["2="] is dropped, and the
    line at position 0 with sequence ["AC"] yields two sentinels instead of
    the extension ["AC"] of its one operation. *)
Theorem get_one_string_drops_equal_operation :
  get_sam_cigar_operations (chars "2=") = []
  ∧ get_one_string {| POS := 0; CIGAR := chars "2="; SEQ := chars "AC" |} 2
    = Ok (Some (chars "**"))
  ∧ (f ← lambda_dict_getitem "="%char; Ok (f 0 0 2 (chars "AC")))
    = Ok (2, 2, chars "AC").
Proof. vm_compute. repeat split. Qed.

End SamTheorems.

(** ** anonymize_microreact.py *)

Module AnonymizeFacts.
Import Py Anonymize.

Definition tally_step (admn2_counts : gmap string nat)
    (entry : gmap string string) : result (gmap string nat) :=
  location ← getitem entry "adm2";
  Ok (match admn2_counts !! location with
      | Some n => <[location := n + 1]> admn2_counts
      | None => <[location := 1]> admn2_counts
      end).

Lemma tally_from (ml : list (gmap string string)) (c0 : gmap string nat) :
  Forall (λ e, is_Some (e !! "adm2")) ml →
  ∃ c, foldlM tally_step c0 ml = Ok c
       ∧ ∀ v, default 0 (c !! v) = default 0 (c0 !! v) + occurrences v ml.
Proof.
  intros Hall. revert c0.
  induction Hall as [|e ml [loc Hloc] _ IH]; intros c0; simpl.
  - exists c0. split; [done|]. intros v. unfold occurrences. simpl. lia.
  - assert (tally_step c0 e
            = Ok (match c0 !! loc with
                  | Some n => <[loc := n + 1]> c0
                  | None => <[loc := 1]> c0
                  end)) as ->
      by (unfold tally_step, getitem; by rewrite Hloc).
    simpl.
    destruct (IH (match c0 !! loc with
                  | Some n => <[loc := n + 1]> c0
                  | None => <[loc := 1]> c0
                  end)) as (c & Hc & Hcount).
    exists c. split; [exact Hc|]. intros v. rewrite Hcount.
    unfold occurrences. rewrite filter_cons.
    destruct (decide (loc = v)) as [->|Hne].
    + rewrite decide_True by done. simpl.
      destruct (c0 !! v) as [n|]; rewrite lookup_insert_eq; simpl; lia.
    + rewrite decide_False by congruence.
      destruct (c0 !! loc) as [n|]; rewrite lookup_insert_ne by done; lia.
Qed.

Lemma count_locations_spec (ml : list (gmap string string)) :
  Forall (λ e, is_Some (e !! "adm2")) ml →
  ∃ c, count_locations ml = Ok c
       ∧ ∀ v, default 0 (c !! v) = occurrences v ml.
Proof.
  intros Hall. destruct (tally_from ml ∅ Hall) as (c & Hc & Hcount).
  exists c. split; [exact Hc|]. intros v. rewrite Hcount, lookup_empty.
  reflexivity.
Qed.

Lemma elem_of_anonymous_locations (c : gmap string nat) (v : string) :
  v ∈ anonymous_locations c ↔ ∃ n, c !! v = Some n ∧ n < 5.
Proof.
  unfold anonymous_locations. rewrite elem_of_dom. split.
  - intros [n Hn]. apply map_lookup_filter_Some in Hn as [Hn Hlt]. eauto.
  - intros (n & Hn & Hlt). exists n. by apply map_lookup_filter_Some.
Qed.

Lemma occurrences_pos (ml : list (gmap string string)) (i : nat)
    (e : gmap string string) (v : string) :
  ml !! i = Some e → e !! "adm2" = Some v → 0 < occurrences v ml.
Proof.
  intros Hi Hv. unfold occurrences.
  assert (e ∈ filter (λ e, e !! "adm2" = Some v) ml) as Hin.
  { apply list_elem_of_filter. split; [done|]. by eapply list_elem_of_lookup_2. }
  destruct (filter _ ml); [by apply elem_of_nil in Hin|simpl; lia].
Qed.

End AnonymizeFacts.

Module AnonymizeTheorems.
Import Py Anonymize AnonymizeFacts.

(** C8, amended.  When every entry has an [adm2] value the redaction
    returns one entry per input entry, equal to it but for the new field
    [anonymized_admn2]: the empty string when the entry's [adm2] value
    occurs fewer than 5 times in the file, the [adm2] value itself when it
    occurs 5 times or more.  The field is therefore empty exactly when
    the value is rare or is itself the empty string. *)
Theorem anonymized_admn2_by_count (metadata_list : list (gmap string string)) :
  Forall (λ e, is_Some (e !! "adm2")) metadata_list →
  ∃ out,
    anonymize_locations metadata_list = Ok out
    ∧ Forall2 (λ e e',
        ∃ v red,
          e !! "adm2" = Some v
          ∧ e' = <["anonymized_admn2" := red]> e
          ∧ (occurrences v metadata_list < 5 → red = "")
          ∧ (5 ≤ occurrences v metadata_list → red = v)
          ∧ (red = "" ↔ occurrences v metadata_list < 5 ∨ v = ""))
        metadata_list out.
Proof.
  intros Hall.
  destruct (count_locations_spec _ Hall) as (c & Hc & Hcount).
  unfold anonymize_locations. rewrite Hc. simpl.
  apply mapM_Ok_spec. apply Forall_lookup. intros i e Hi.
  destruct (proj1 (Forall_lookup _ _) Hall i e Hi) as [v Hv].
  pose proof (occurrences_pos _ _ _ _ Hi Hv) as Hpos.
  pose proof (Hcount v) as Hcv.
  assert (c !! v = Some (occurrences v metadata_list)) as Hlook.
  { destruct (c !! v) as [n|]; simpl in Hcv; [by subst|lia]. }
  unfold anonymize_entry, getitem. rewrite Hv. simpl.
  case_bool_decide as Hin.
  - apply elem_of_anonymous_locations in Hin as (n & Hn & Hlt).
    rewrite Hlook in Hn. injection Hn as <-.
    eexists. split; [done|]. exists v, "". split; [done|]. split; [done|].
    split; [done|]. split; [lia|]. split; [by left|done].
  - assert (5 ≤ occurrences v metadata_list) as Hge.
    { destruct (Nat.lt_ge_cases (occurrences v metadata_list) 5); [|done].
      exfalso. apply Hin, elem_of_anonymous_locations. eauto. }
    eexists. split; [done|]. exists v, v. split; [done|]. split; [done|].
    split; [lia|]. split; [done|]. split; [by right|].
    intros [?|?]; [lia|done].
Qed.

Lemma anonymized_admn2_by_count_witness :
  ∃ out,
    anonymize_locations mostly_kent = Ok out
    ∧ Forall2 (λ e e',
        ∃ v red,
          e !! "adm2" = Some v
          ∧ e' = <["anonymized_admn2" := red]> e
          ∧ (occurrences v mostly_kent < 5 → red = "")
          ∧ (5 ≤ occurrences v mostly_kent → red = v)
          ∧ (red = "" ↔ occurrences v mostly_kent < 5 ∨ v = ""))
        mostly_kent out.
Proof.
  apply (anonymized_admn2_by_count mostly_kent).
  repeat constructor; eexists; vm_compute; reflexivity.
Defined.

(** C8 as stated fails on an entry without location: the empty [adm2]
    value occurs five times, so it is copied through, and the redacted
    field is empty although the value is not rare. *)
Lemma anonymized_empty_although_frequent :
  ¬ (∀ ml out i e e' v,
       anonymize_locations ml = Ok out →
       ml !! i = Some e → out !! i = Some e' → e !! "adm2" = Some v →
       (e' !! "anonymized_admn2" = Some "" ↔ occurrences v ml < 5)).
Proof.
  intros H.
  assert ((out ← anonymize_locations mostly_unlabelled;
           Ok (out !! 0 ≫= (.!! "anonymized_admn2"))) = Ok (Some ""))
    as Hrun by (vm_compute; reflexivity).
  destruct (anonymize_locations mostly_unlabelled) as [out|e] eqn:Hout;
    [|discriminate].
  simpl in Hrun. destruct (out !! 0) as [e'|] eqn:He'; [|discriminate].
  injection Hrun as Hred.
  assert (entry_of "a" "" !! "adm2" = Some "") as Hv
    by (vm_compute; reflexivity).
  destruct (H mostly_unlabelled out 0 (entry_of "a" "") e' ""
              Hout eq_refl He' Hv) as [Hlt _].
  specialize (Hlt Hred). vm_compute in Hlt. lia.
Qed.

End AnonymizeTheorems.

(** ** curate_lineages.py *)

Module CurateTheorems.
Import Py ODict Curate.

(** The end-to-end example of the specification: cluster [A1] proposes
    [UK1] three times, cluster [A2] twice, with one empty proposal; [A1]
    keeps [UK1] and [A2] gets the fresh label [UK2]. *)
Example curate_spec_example :
  (r ← curate_lineages
         [ traits_header;
           traits_row "a" "UK1" "A1"; traits_row "b" "UK1" "A1";
           traits_row "c" "UK1" "A1"; traits_row "d" "UK1" "A2";
           traits_row "e" "UK1" "A2"; traits_row "f" "" "A2" ];
   Ok r.1)
  = Ok [("A1", "UK1"); ("A2", "UK2")].
Proof. vm_compute. reflexivity. Qed.

(** C2.  One cluster holds [UK2] and two clusters are unnamed.  The pool of
    unused integers is [[1]]; once it is empty the next integer is
    [len(full_list) + 1 = 2], which is in use: the second unnamed cluster
    is labelled [UK2] as well.  The assertions only count the labels that
    were in use before the naming, so the run completes and writes the
    label twice. *)
Theorem name_new_lineages_reuses_label :
  name_new_lineages [("A", ["UK2"]); ("B", [""]); ("C", [""])]
  = Ok ([("A", "UK2"); ("B", "UK1"); ("C", "UK2")], [(2%Z, 1)])
  ∧ (r ← curate_lineages traits_two_unnamed; Ok r.1)
    = Ok [("A", "UK2"); ("B", "UK1"); ("C", "UK2")]
  ∧ ¬ NoDup (map snd [("A", "UK2"); ("B", "UK1"); ("C", "UK2")]).
Proof.
  split; [vm_compute; reflexivity|]. split; [vm_compute; reflexivity|].
  intros Hnd. apply NoDup_cons in Hnd as [Hin _]. apply Hin.
  simpl. right. left.
Qed.

(** C4.  Clusters [W] and [L] both win [UK1] in the first pass with the
    same count; [W] comes first and keeps it.  [L] is reassigned by
    iterating over its tally, whose order is that of first occurrence
    ([UK1], [UK2], [UK3]), not that of frequency ([UK1], [UK3], [UK2]): it
    gets [UK2], proposed once, although [UK3], proposed twice, is claimed by
    no cluster. *)
Theorem sweep_scans_in_insertion_order :
  (t ← make_taxon_objects traits_shared_label;
   Ok (get "L" (acc_name_counts t)))
  = Ok (Some [("UK1", 3); ("UK2", 1); ("UK3", 2)])
  ∧ most_common [("UK1", 3); ("UK2", 1); ("UK3", 2)]
    = [("UK1", 3); ("UK3", 2); ("UK2", 1)]
  ∧ (t ← make_taxon_objects traits_shared_label;
     rename_lineages (acc_name_counts t) (lin_acc_counts t))
    = Ok ([("W", ["UK1"]); ("L", ["UK1"])], ["UK1"; "UK1"])
  ∧ (t ← make_taxon_objects traits_shared_label;
     deal_with_issues [("W", ["UK1"]); ("L", ["UK1"])] ["UK1"; "UK1"]
                      (lin_acc_counts t) (acc_name_counts t))
    = Ok [("W", ["UK1"]); ("L", ["UK2"])]
  ∧ first_unclaimed_by_frequency [("UK1", 3); ("UK2", 1); ("UK3", 2)]
                                 [("W", ["UK1"]); ("L", [])]
    = "UK3".
Proof. repeat split; vm_compute; reflexivity. Qed.

End CurateTheorems.

(** ** gisaid_json_2_metadata.py *)

Module GisaidFacts.
Import Py Gisaid.

Lemma getitem_Some {V} (d : gmap string V) (k : string) (v : V) :
  d !! k = Some v → getitem d k = Ok v.
Proof. intros H. unfold getitem. by rewrite H. Qed.

Lemma getitem_Ok {V} (d : gmap string V) (k : string) (v : V) :
  getitem d k = Ok v → d !! k = Some v.
Proof. unfold getitem. destruct (d !! k); [by intros [= ->]|discriminate]. Qed.

Lemma forallb_not_exception (country : string) :
  country ∉ known_exceptions →
  forallb (λ x, negb (String.eqb country x)) known_exceptions = true.
Proof.
  intros H. apply forallb_forall. intros x Hx.
  apply negb_true_iff, String.eqb_neq. intros ->.
  apply H, list_elem_of_In, Hx.
Qed.

(** Under the default argument the failing lookup ends in the attribute
    access on [True]. *)
Lemma check_country_default_raises (lookup : string → bool)
    (country : string) (d : gmap string string) :
  country ∉ known_exceptions → lookup country = false →
  check_country lookup (PyBool true) country d = Raise AttributeError.
Proof.
  intros Hex Hlook. unfold check_country. simpl truthy. cbv iota.
  rewrite (forallb_not_exception _ Hex), Hlook. reflexivity.
Qed.

(** With the module passed for [warnings] the flag is appended. *)
Lemma check_country_module_flags (lookup : string → bool)
    (country ID flag : string) (d : gmap string string) :
  country ∉ known_exceptions → lookup country = false →
  d !! "covv_accession_id" = Some ID → d !! "edin_flag" = Some flag →
  check_country lookup PyModule_warnings country d
  = Ok (<["edin_flag" := if String.length flag =? 0 then "check_country"
                         else flag +:+ ":" +:+ "check_country"]> d).
Proof.
  intros Hex Hlook HID Hflag. unfold check_country. simpl truthy. cbv iota.
  rewrite (forallb_not_exception _ Hex), Hlook. simpl.
  rewrite (getitem_Some _ _ _ HID). simpl.
  unfold add_flag. rewrite (getitem_Some _ _ _ Hflag). simpl.
  by destruct (String.length flag =? 0).
Qed.

(** A country that passes the check leaves the record to the three
    assignments. *)
Lemma check_country_passes (lookup : string → bool) (warnings : pyobj)
    (country : string) (d : gmap string string) :
  truthy warnings = false ∨ country ∈ known_exceptions
  ∨ lookup country = true →
  check_country lookup warnings country d = Ok d.
Proof.
  intros H. unfold check_country.
  destruct (truthy warnings); [|done].
  destruct (forallb _ known_exceptions) eqn:Hall; [|done].
  destruct H as [?|[Hin| ->]]; [done| |done].
  exfalso. rewrite forallb_forall in Hall.
  apply list_elem_of_In, Hall in Hin.
  by rewrite String.eqb_refl in Hin.
Qed.

(** What a returning call has stored in the three fields. *)
Lemma get_admin_levels_Ok (lookup : string → bool) (warnings : pyobj)
    (d d' : gmap string string) (loc : string) :
  d !! "covv_location" = Some loc →
  get_admin_levels_from_json_dict lookup d warnings = Ok d' →
  let levels := derive_levels (location_strings loc) in
  d' !! "edin_admin_0" = Some (rename_country levels.1.1)
  ∧ d' !! "edin_admin_1" = Some levels.1.2
  ∧ d' !! "edin_admin_2" = Some levels.2.
Proof.
  intros Hloc. unfold get_admin_levels_from_json_dict.
  rewrite (getitem_Some _ _ _ Hloc). simpl.
  destruct (check_country _ _ _ _) as [d0|e]; simpl; [|discriminate].
  intros [= <-]. repeat split.
  - rewrite lookup_insert_ne by done. rewrite lookup_insert_ne by done.
    by rewrite lookup_insert_eq.
  - rewrite lookup_insert_ne by done. by rewrite lookup_insert_eq.
  - by rewrite lookup_insert_eq.
Qed.

Lemma get_admin_levels_passes (lookup : string → bool) (warnings : pyobj)
    (d : gmap string string) (loc : string) :
  d !! "covv_location" = Some loc →
  truthy warnings = false ∨ derived_country loc ∈ known_exceptions
  ∨ lookup (derived_country loc) = true →
  let levels := derive_levels (location_strings loc) in
  get_admin_levels_from_json_dict lookup d warnings
  = Ok (<["edin_admin_2" := levels.2]>
          (<["edin_admin_1" := levels.1.2]>
             (<["edin_admin_0" := rename_country levels.1.1]> d))).
Proof.
  intros Hloc Hpass. unfold get_admin_levels_from_json_dict.
  rewrite (getitem_Some _ _ _ Hloc). simpl.
  by rewrite (check_country_passes _ _ _ _ Hpass).
Qed.

End GisaidFacts.

Module GisaidAdminTheorems.
Import Py Gisaid GisaidFacts.

(** C1 fails.  Whenever the derived country of a record is none of the
    five exceptions and the country lookup rejects it, the derivation of
    the administrative levels, called as the converter calls it (with the
    default [True] for [warnings]), raises [AttributeError]: no flag is
    appended and no record is returned. *)
Theorem failed_lookup_raises (lookup : string → bool)
    (d : gmap string string) (loc : string) :
  d !! "covv_location" = Some loc →
  derived_country loc ∉ known_exceptions →
  lookup (derived_country loc) = false →
  get_admin_levels_from_json_dict lookup d (PyBool true)
  = Raise AttributeError.
Proof.
  intros Hloc Hex Hlook. unfold get_admin_levels_from_json_dict.
  rewrite (getitem_Some _ _ _ Hloc). simpl.
  fold (derived_country loc).
  by rewrite (check_country_default_raises _ _ _ Hex Hlook).
Qed.

Lemma failed_lookup_raises_witness :
  get_admin_levels_from_json_dict lookup_three
    (json_line "EPI_ISL_000003" "hCoV-19/N/C/2020" "Europe / Narnia"
               "2020-01-05")
    (PyBool true)
  = Raise AttributeError.
Proof.
  apply (failed_lookup_raises lookup_three _ "Europe / Narnia").
  - vm_compute. reflexivity.
  - vm_compute. intros H. by repeat (apply elem_of_cons in H as [H|H]);
      [..|apply elem_of_nil in H].
  - vm_compute. reflexivity.
Defined.

(** The converter as a whole stops on such a record: a dump of two new
    records, the second from a country that the lookup rejects, gives no
    output but the exception, whereas the same dump without that record
    is converted. *)
Example run_aborts_on_failed_lookup :
  let run := gisaid_json_2_metadata lookup_three no_travel_history
                                    "2020-04-01" in
  let j1 := json_line "EPI_ISL_000001" "hCoV-19/England/A/2020"
                      "Europe / United Kingdom / England" "2020-03-01" in
  let j3 := json_line "EPI_ISL_000003" "hCoV-19/N/C/2020" "Europe / Narnia"
                      "2020-01-05" in
  run [j1; j3] None ∅ None = Raise AttributeError
  ∧ (out ← run [j1] None ∅ None; Ok (length out)) = Ok 2.
Proof. split; vm_compute; reflexivity. Qed.

(** Passing the module itself for [warnings] is what the body is written
    for: then the flag is appended and the levels are stored. *)
Example module_argument_flags :
  (d ← get_admin_levels_from_json_dict lookup_three
         (<["edin_flag" := "check_date"]>
            (json_line "EPI_ISL_000003" "hCoV-19/N/C/2020" "Europe / Narnia"
                       "2020-01-05"))
         PyModule_warnings;
   Ok (d !! "edin_flag", d !! "edin_admin_0"))
  = Ok (Some "check_date:check_country", Some "Narnia").
Proof. vm_compute. reflexivity. Qed.

(** C5, amended.  The first token of the location is the continent, so
    for ["England / Greater London /"] the country is [Greater London]
    and nothing is shifted or renamed.  Whatever the country lookup
    answers, a call that returns has set [edin_admin_0] to
    [Greater London] and [edin_admin_1] and [edin_admin_2] to the empty
    string, and the call with the module [warnings] returns for every
    record that has an identifier and a flag field. *)
Theorem greater_london_levels (lookup : string → bool)
    (d : gmap string string) :
  d !! "covv_location" = Some "England / Greater London /" →
  is_Some (d !! "covv_accession_id") → is_Some (d !! "edin_flag") →
  (∃ d',
     get_admin_levels_from_json_dict lookup d PyModule_warnings = Ok d'
     ∧ d' !! "edin_admin_0" = Some "Greater London"
     ∧ d' !! "edin_admin_1" = Some ""
     ∧ d' !! "edin_admin_2" = Some "")
  ∧ (∀ warnings d',
       get_admin_levels_from_json_dict lookup d warnings = Ok d' →
       d' !! "edin_admin_0" = Some "Greater London"
       ∧ d' !! "edin_admin_1" = Some ""
       ∧ d' !! "edin_admin_2" = Some "").
Proof.
  intros Hloc [ID HID] [flag Hflag].
  assert (derive_levels (location_strings "England / Greater London /")
          = ("Greater London", "", "")) as Hlev by (vm_compute; reflexivity).
  assert (∀ warnings d',
            get_admin_levels_from_json_dict lookup d warnings = Ok d' →
            d' !! "edin_admin_0" = Some "Greater London"
            ∧ d' !! "edin_admin_1" = Some ""
            ∧ d' !! "edin_admin_2" = Some "") as Hany.
  { intros warnings d' Hrun.
    pose proof (get_admin_levels_Ok lookup warnings d _ _ Hloc Hrun) as Hout.
    rewrite Hlev in Hout. exact Hout. }
  split; [|exact Hany].
  assert (∃ d', get_admin_levels_from_json_dict lookup d PyModule_warnings
                = Ok d') as [d' Hrun]; [|exists d'; split; eauto].
  destruct (lookup "Greater London") eqn:Hlook.
  - pose proof (get_admin_levels_passes lookup PyModule_warnings d _ Hloc)
      as Hp.
    unfold derived_country in Hp. rewrite Hlev in Hp.
    eexists. apply Hp. auto.
  - unfold get_admin_levels_from_json_dict.
    rewrite (getitem_Some _ _ _ Hloc). cbn [mbind result_bind].
    rewrite Hlev. cbn [fst snd].
    rewrite (check_country_module_flags _ _ ID flag); [by eexists| |done..].
    vm_compute. intros H.
    by repeat (apply elem_of_cons in H as [H|H]; [discriminate|]);
      apply elem_of_nil in H.
Qed.

Lemma greater_london_levels_witness :
  (∃ d',
     get_admin_levels_from_json_dict lookup_three
       (<["edin_flag" := ""]>
          (json_line "EPI_ISL_000004" "hCoV-19/England/D/2020"
                     "England / Greater London /" "2020-03-02"))
       PyModule_warnings = Ok d'
     ∧ d' !! "edin_admin_0" = Some "Greater London"
     ∧ d' !! "edin_admin_1" = Some ""
     ∧ d' !! "edin_admin_2" = Some "")
  ∧ (∀ warnings d',
       get_admin_levels_from_json_dict lookup_three
         (<["edin_flag" := ""]>
            (json_line "EPI_ISL_000004" "hCoV-19/England/D/2020"
                       "England / Greater London /" "2020-03-02"))
         warnings = Ok d' →
       d' !! "edin_admin_0" = Some "Greater London"
       ∧ d' !! "edin_admin_1" = Some ""
       ∧ d' !! "edin_admin_2" = Some "").
Proof.
  apply (greater_london_levels lookup_three).
  - vm_compute. reflexivity.
  - exists "EPI_ISL_000004". vm_compute. reflexivity.
  - exists "". vm_compute. reflexivity.
Defined.

(** C5 as stated fails: for a record with this location no country
    lookup and no argument [warnings] make the call return a record with
    [UK] in [edin_admin_0]. *)
Lemma greater_london_is_not_UK :
  ¬ ∃ (lookup : string → bool) (warnings : pyobj)
      (d' : gmap string string),
      get_admin_levels_from_json_dict lookup
        (<["edin_flag" := ""]>
           (json_line "EPI_ISL_000004" "hCoV-19/England/D/2020"
                      "England / Greater London /" "2020-03-02"))
        warnings = Ok d'
      ∧ d' !! "edin_admin_0" = Some "UK".
Proof.
  intros (lookup & warnings & d' & Hrun & HUK).
  assert ((<["edin_flag" := ""]>
             (json_line "EPI_ISL_000004" "hCoV-19/England/D/2020"
                        "England / Greater London /" "2020-03-02"))
          !! "covv_location" = Some "England / Greater London /") as Hloc
    by (vm_compute; reflexivity).
  pose proof (get_admin_levels_Ok lookup warnings _ _ _ Hloc Hrun) as Hout.
  assert (derive_levels (location_strings "England / Greater London /")
          = ("Greater London", "", "")) as Hlev by (vm_compute; reflexivity).
  rewrite Hlev in Hout. destruct Hout as [H0 _].
  rewrite HUK in H0. discriminate.
Qed.

(** As the converter calls the derivation, with a lookup that does not
    know [Greater London], the record stops the run in the way of C1. *)
Example greater_london_run :
  gisaid_json_2_metadata lookup_three no_travel_history "2020-04-01"
    [json_line "EPI_ISL_000004" "hCoV-19/England/D/2020"
               "England / Greater London /" "2020-03-02"]
    None ∅ None
  = Raise AttributeError.
Proof. vm_compute. reflexivity. Qed.

(** The levels that C5 names are those of a location with a continent and
    [United Kingdom] as the country. *)
Example united_kingdom_levels :
  derive_levels (location_strings "Europe / United Kingdom / Greater London")
  = ("United Kingdom", "Greater London", "")
  ∧ rename_country "United Kingdom" = "UK"
  ∧ derive_levels (location_strings "Europe / England / Greater London")
    = ("United Kingdom", "England", "Greater London").
Proof. repeat split; vm_compute; reflexivity. Qed.

End GisaidAdminTheorems.

Module GisaidRunFacts.
Import Py Gisaid GisaidFacts.


(** *** One comprehension over the new gmap string (gmap string string) *)

Lemma update_all_spec (f : gmap string string → result (gmap string string))
    (keys : list string) :
  NoDup keys → ∀ store : gmap string (gmap string string),
  (∀ k, k ∈ keys → ∃ d d', store !! k = Some d ∧ f d = Ok d') →
  ∃ store',
    update_all f keys store = Ok store'
    ∧ (∀ k d, k ∈ keys → store !! k = Some d →
       ∃ d', f d = Ok d' ∧ store' !! k = Some d')
    ∧ (∀ k, k ∉ keys → store' !! k = store !! k).
Proof.
  induction 1 as [|x keys Hx Hnd IH]; intros store Hall.
  - exists store. split; [done|]. split; [|done].
    intros k d Hk. by apply elem_of_nil in Hk.
  - destruct (Hall x) as (d & d' & Hd & Hf); [by left|].
    destruct (IH (<[x := d']> store)) as (store' & Hrun & Hin & Hout).
    { intros k Hk. destruct (Hall k) as (dk & dk' & Hdk & Hfk); [by right|].
      exists dk, dk'. split; [|done].
      rewrite lookup_insert_ne; [done|]. by intros ->. }
    exists store'. split; [|split].
    + unfold update_all in *. simpl.
      rewrite (getitem_Some _ _ _ Hd). simpl. rewrite Hf. simpl. exact Hrun.
    + intros k dk Hk Hdk. apply elem_of_cons in Hk as [->|Hk].
      * rewrite Hd in Hdk. injection Hdk as <-. exists d'. split; [done|].
        rewrite (Hout x Hx). by rewrite lookup_insert_eq.
      * apply Hin; [done|]. rewrite lookup_insert_ne; [done|]. by intros ->.
    + intros k Hk. rewrite Hout.
      * rewrite lookup_insert_ne; [done|]. intros ->. apply Hk. by left.
      * intros ?. apply Hk. by right.
Qed.

(** *** The sequence of comprehensions *)

(** One record through a list of updates, and the store through the
    comprehensions of these updates. *)
Definition apply_steps
    (fs : list (gmap string string → result (gmap string string)))
    (d : gmap string string)
  : result (gmap string string) :=
  foldlM (λ d f, f d) d fs.

Definition apply_steps_all
    (fs : list (gmap string string → result (gmap string string)))
    (keys : list string) (store : gmap string (gmap string string))
  : result (gmap string (gmap string string)) :=
  foldlM (λ store f, update_all f keys store) store fs.

Lemma apply_steps_all_spec
    (fs : list (gmap string string → result (gmap string string)))
    (keys : list string) :
  NoDup keys → ∀ store : gmap string (gmap string string),
  (∀ k, k ∈ keys →
        ∃ d r, store !! k = Some d ∧ apply_steps fs d = Ok r) →
  ∃ store',
    apply_steps_all fs keys store = Ok store'
    ∧ (∀ k d, k ∈ keys → store !! k = Some d →
       ∃ r, apply_steps fs d = Ok r ∧ store' !! k = Some r)
    ∧ (∀ k, k ∉ keys → store' !! k = store !! k).
Proof.
  intros Hnd. unfold apply_steps, apply_steps_all.
  induction fs as [|f fs IH]; intros store Hall.
  - exists store. split; [done|]. split; [|done].
    intros k d Hk Hd. by exists d.
  - destruct (update_all_spec f keys Hnd store) as (s1 & Hrun1 & Hin1 & Hout1).
    { intros k Hk. destruct (Hall k Hk) as (d & r & Hd & Hr).
      simpl in Hr. destruct (f d) as [d'|e] eqn:Hf; [|discriminate]. eauto. }
    destruct (IH s1) as (s2 & Hrun2 & Hin2 & Hout2).
    { intros k Hk. destruct (Hall k Hk) as (d & r & Hd & Hr).
      destruct (Hin1 k d Hk Hd) as (d' & Hf & Hd').
      exists d', r. split; [done|]. simpl in Hr. by rewrite Hf in Hr. }
    exists s2. split; [|split].
    + simpl. rewrite Hrun1. exact Hrun2.
    + intros k d Hk Hd. destruct (Hin1 k d Hk Hd) as (d' & Hf & Hd').
      destruct (Hin2 k d' Hk Hd') as (r & Hr & Hs2).
      exists r. split; [|done]. simpl. by rewrite Hf.
    + intros k Hk. by rewrite Hout2, Hout1.
Qed.

(** *** The keys of the comprehension *)

Lemma elem_of_dict_keys (l seen : list string) (k : string) :
  k ∈ dict_keys seen l ↔ k ∈ l ∧ k ∉ seen.
Proof.
  revert seen. induction l as [|x l IH]; intros seen; simpl.
  - split; [by intros ?%elem_of_nil|by intros [?%elem_of_nil _]].
  - case_bool_decide as Hx.
    + rewrite IH. split.
      * intros [? ?]. split; [by right|done].
      * intros [[->|?]%elem_of_cons ?]; [done|by split].
    + rewrite elem_of_cons, IH. split.
      * intros [->|[? Hk]]; [split; [by left|done]|].
        split; [by right|]. intros ?. apply Hk. by right.
      * intros [[->|?]%elem_of_cons Hk]; [by left|].
        destruct (decide (k = x)) as [->|Hne]; [by left|].
        right. split; [done|]. by intros [?|?]%elem_of_cons.
Qed.

Lemma NoDup_dict_keys (l seen : list string) : NoDup (dict_keys seen l).
Proof.
  revert seen. induction l as [|x l IH]; intros seen; simpl.
  - constructor.
  - case_bool_decide; [apply IH|]. constructor; [|apply IH].
    rewrite elem_of_dict_keys. intros [_ Hx]. apply Hx. by left.
Qed.

(** *** The dicts read from the two files *)

Section expand.

Let add (d : gmap string string) (x : string) : gmap string string :=
  match d !! x with
  | Some _ => d
  | None => <[x := ""]> d
  end.

Lemma add_keeps (l : list string) (d : gmap string string) (x v : string) :
  d !! x = Some v → foldl add d l !! x = Some v.
Proof.
  revert d. induction l as [|y l IH]; intros d Hx; simpl; [done|].
  apply IH. unfold add. destruct (d !! y) eqn:Hy; [done|].
  rewrite lookup_insert_ne; [done|]. intros ->. congruence.
Qed.

Lemma add_fills (l : list string) (d : gmap string string) (x : string) :
  x ∈ l → is_Some (foldl add d l !! x).
Proof.
  revert d. induction l as [|y l IH]; intros d Hx; simpl.
  - by apply elem_of_nil in Hx.
  - apply elem_of_cons in Hx as [->|Hx]; [|by apply IH].
    unfold add at 2. destruct (d !! y) as [v|] eqn:Hy.
    + exists v. by apply add_keeps.
    + exists "". apply add_keeps. by rewrite lookup_insert_eq.
Qed.


Lemma expand_dict_fills (d : gmap string string) (req opt : list string)
    (x : string) :
  x ∈ req ++ opt → is_Some (expand_dict d req opt !! x).
Proof.
  intros [Hx|Hx]%elem_of_app; unfold expand_dict.
  - destruct (add_fills req d x Hx) as [v Hv]. exists v. by apply add_keeps.
  - by apply add_fills.
Qed.

End expand.

Lemma accession_id_required : "covv_accession_id" ∈ required_fields.
Proof. unfold required_fields, _fields_gisaid. by left. Qed.

Lemma getitem_accession_id (d : gmap string string) (opt : list string) :
  getitem (expand_dict d required_fields opt) "covv_accession_id"
  = Ok (accession_id (expand_dict d required_fields opt)).
Proof.
  unfold accession_id.
  destruct (expand_dict_fills d required_fields opt "covv_accession_id")
    as [v Hv]; [apply elem_of_app; left; apply accession_id_required|].
  rewrite (getitem_Some _ _ _ Hv). by rewrite Hv.
Qed.

Lemma getitem_json_record (opt : list string) (j : gmap string string) :
  getitem (json_record required_fields opt j) "covv_accession_id"
  = Ok (accession_id (json_record required_fields opt j)).
Proof. apply getitem_accession_id. Qed.

(** The store that a reading loop leaves: a later line replaces an
    earlier one with the same identifier. *)
Definition store_of {A} (rec : A → gmap string string) (lines : list A)
    (store : gmap string (gmap string string))
  : gmap string (gmap string string) :=
  foldl (λ s j, <[accession_id (rec j) := rec j]> s) store lines.

Lemma store_of_app {A} (rec : A → gmap string string) (l1 l2 : list A)
    (store : gmap string (gmap string string)) :
  store_of rec (l1 ++ l2) store = store_of rec l2 (store_of rec l1 store).
Proof. unfold store_of. by rewrite foldl_app. Qed.

Lemma store_of_other {A} (rec : A → gmap string string) (lines : list A)
    (store : gmap string (gmap string string)) (k : string) :
  k ∉ map (λ j, accession_id (rec j)) lines →
  store_of rec lines store !! k = store !! k.
Proof.
  revert store. induction lines as [|j lines IH]; intros store Hk; [done|].
  simpl in *. change (store_of rec lines
    (<[accession_id (rec j) := rec j]> store) !! k = store !! k).
  rewrite IH.
  - rewrite lookup_insert_ne; [done|]. intros <-. apply Hk. by left.
  - intros ?. apply Hk. by right.
Qed.

Lemma store_of_last {A} (rec : A → gmap string string) (pre post : list A)
    (j : A) (store : gmap string (gmap string string)) :
  accession_id (rec j) ∉ map (λ j, accession_id (rec j)) post →
  store_of rec (pre ++ j :: post) store !! accession_id (rec j)
  = Some (rec j).
Proof.
  intros Hpost. rewrite store_of_app.
  change (store_of rec (j :: post) ?s)
    with (store_of rec post (<[accession_id (rec j) := rec j]> s)).
  rewrite store_of_other by done. by rewrite lookup_insert_eq.
Qed.

(** The last line with a given identifier. *)
Lemma last_occurrence {A} (id : A → string) (lines : list A) (k : string) :
  k ∈ map id lines →
  ∃ pre j post, lines = pre ++ j :: post ∧ id j = k ∧ k ∉ map id post.
Proof.
  induction lines as [|j lines IH]; simpl; intros Hk.
  - by apply elem_of_nil in Hk.
  - destruct (decide (k ∈ map id lines)) as [Hin|Hnin].
    + destruct (IH Hin) as (pre & j' & post & -> & Hid & Hpost).
      by exists (j :: pre), j', post.
    + apply elem_of_cons in Hk as [->|?]; [|done].
      by exists [], j, lines.
Qed.

Lemma store_of_elem {A} (rec : A → gmap string string) (lines : list A)
    (k : string) :
  k ∈ map (λ j, accession_id (rec j)) lines →
  ∃ pre j post,
    lines = pre ++ j :: post
    ∧ accession_id (rec j) = k
    ∧ (k ∉ map (λ j, accession_id (rec j)) post)
    ∧ store_of rec lines ∅ !! k = Some (rec j).
Proof.
  intros Hk.
  destruct (last_occurrence _ _ _ Hk) as (pre & j & post & -> & <- & Hpost).
  exists pre, j, post. repeat split; [done|]. by apply store_of_last.
Qed.

Lemma read_json_lines (opt : list string) (json : list (gmap string string))
    (st : list string * gmap string (gmap string string)) :
  foldlM (read_json_line required_fields opt) st json
  = Ok (st.1 ++ map (λ j, accession_id (json_record required_fields opt j))
                    json,
        store_of (json_record required_fields opt) json st.2).
Proof.
  revert st. induction json as [|j json IH]; intros [order store]; simpl.
  - by rewrite app_nil_r.
  - unfold read_json_line at 2. rewrite getitem_json_record. simpl.
    rewrite IH. simpl. by rewrite <- app_assoc.
Qed.

Lemma get_json_order_and_record_dict_spec (opt : list string)
    (json : list (gmap string string)) :
  get_json_order_and_record_dict json required_fields opt
  = Ok (map (λ j, accession_id (json_record required_fields opt j)) json,
        store_of (json_record required_fields opt) json ∅).
Proof. unfold get_json_order_and_record_dict. by rewrite read_json_lines. Qed.

End GisaidRunFacts.

Module GisaidRun.
Import Py Gisaid GisaidFacts GisaidRunFacts.

Section run.

Variable lookup : string → bool.
Variable get_travel_history : gmap string string → gmap string string.
Variable mydate : string.
Variable omitted_IDs : gset string.
Variable args_lineages : option (gmap string string).

(** The updates of the converter as a list. *)
Definition steps : list (gmap string string → result (gmap string string)) :=
  [ λ d, update_edin_omitted_field d omitted_IDs;
    λ d, Ok (update_edin_date_stamp_field mydate d);
    λ d, get_admin_levels_from_json_dict lookup d (PyBool true);
    check_gisaid_date;
    λ d, Ok (get_travel_history d) ]
  ++ match args_lineages with
     | Some lineages => [λ d, update_edin_lineage_field d lineages]
     | None => []
     end.

Lemma enrich_steps (d : gmap string string) :
  enrich lookup get_travel_history mydate omitted_IDs args_lineages d
  = apply_steps steps d.
Proof.
  unfold enrich, apply_steps, steps.
  destruct (update_edin_omitted_field d omitted_IDs) as [d1|] eqn:H1;
    simpl; rewrite H1; simpl; [|done].
  destruct (get_admin_levels_from_json_dict _ _ _) as [d3|]; simpl; [|done].
  destruct (check_gisaid_date d3) as [d4|]; simpl; [|done].
  destruct args_lineages as [lineages|]; simpl; [|done].
  by destruct (update_edin_lineage_field _ _).
Qed.

(** The run of the converter, given what the two files hold and that
    every new record can be updated and written. *)
Lemma converter_run (json : list (gmap string string))
    (args_csv : option (list string)) (flds old_list order : list string)
    (old_dict store : gmap string (gmap string string))
    (old_lines : list string) :
  let out_fields := _fields_edin ++ flds ++ _fields_gisaid in
  let row := new_row lookup get_travel_history mydate omitted_IDs
                     args_lineages flds in
  let new_list := filter (λ x, x ∉ old_list) order in
  load_registry args_csv = Ok (flds, (old_list, old_dict)) →
  get_json_order_and_record_dict json required_fields flds
  = Ok (order, store) →
  mapM (λ record, do ← getitem old_dict record; get_one_line do out_fields)
       old_list = Ok old_lines →
  (∀ k, k ∈ new_list → ∃ d line, store !! k = Some d ∧ row d = Ok line) →
  ∃ rows,
    gisaid_json_2_metadata lookup get_travel_history mydate json args_csv
                           omitted_IDs args_lineages
    = Ok ((join "," out_fields +:+ nl) :: old_lines ++ rows)
    ∧ Forall2 (λ k line, ∃ d, store !! k = Some d ∧ row d = Ok line)
              new_list rows.
Proof.
  intros out_fields row new_list Hcsv Hjson Hold Hnew.
  pose (keys := dict_keys [] new_list).
  destruct (apply_steps_all_spec steps keys (NoDup_dict_keys _ _) store)
    as (store' & Hrun & Hin & _).
  { intros k [Hk _]%elem_of_dict_keys.
    destruct (Hnew k Hk) as (d & line & Hd & Hrow).
    unfold row, new_row in Hrow. rewrite enrich_steps in Hrow.
    destruct (apply_steps steps d) as [r|] eqn:Hr; [|discriminate].
    by exists d, r. }
  assert (Forall (λ k, ∃ line,
            (dn ← getitem store' k; get_one_line dn out_fields) = Ok line
            ∧ ∃ d, store !! k = Some d ∧ row d = Ok line) new_list) as Hrows.
  { apply Forall_forall. intros k Hk.
    destruct (Hnew k Hk) as (d & line & Hd & Hrow).
    destruct (Hin k d) as (r & Hr & Hs'); [|done|].
    { unfold keys. apply elem_of_dict_keys. split; [done|].
      apply not_elem_of_nil. }
    exists line. split; [|eauto].
    rewrite (getitem_Some _ _ _ Hs'). simpl.
    unfold row, new_row in Hrow. rewrite enrich_steps, Hr in Hrow.
    exact Hrow. }
  destruct (mapM_Ok_spec _ _ _ Hrows) as (rows & Hmap & Hall).
  exists rows. split; [|exact Hall].
  unfold apply_steps_all, steps in Hrun. cbn -[update_all] in Hrun.
  unfold gisaid_json_2_metadata. rewrite Hcsv. cbn -[app update_all].
  rewrite Hjson.
  cbn -[app update_all]. fold new_list. fold keys. fold out_fields.
  clearbody out_fields keys. revert Hrun.
  repeat match goal with
         | |- context [update_all ?f keys ?s] =>
             destruct (update_all f keys s); cbn -[app update_all];
               [|discriminate]
         end.
  destruct args_lineages as [lineages|]; cbn -[app update_all].
  - destruct (update_all _ keys _); cbn -[app update_all]; [|discriminate].
    intros [= ->]. unfold write_output.
    rewrite Hold. cbn -[app update_all]. rewrite Hmap. reflexivity.
  - intros [= ->]. unfold write_output.
    rewrite Hold. cbn -[app update_all]. rewrite Hmap. reflexivity.
Qed.

End run.

End GisaidRun.

Module GisaidRegistryFacts.
Import Py Gisaid GisaidFacts GisaidRunFacts.

(** *** Writing one row *)

Lemma mapM_getitem (d : gmap string string) (fields_list : list string) :
  (∀ x, x ∈ fields_list → is_Some (d !! x)) →
  mapM (getitem d) fields_list
  = Ok (map (λ x, default "" (d !! x)) fields_list).
Proof.
  induction fields_list as [|x l IH]; intros Hall; simpl; [done|].
  destruct (Hall x) as [v Hv]; [by left|].
  rewrite (getitem_Some _ _ _ Hv), Hv. simpl.
  rewrite IH; [done|]. intros y Hy. apply Hall. by right.
Qed.

Lemma get_one_line_Ok (d : gmap string string) (fields_list : list string) :
  (∀ x, x ∈ fields_list → is_Some (d !! x)) →
  get_one_line d fields_list
  = Ok (join "," (map (λ x, default "" (d !! x)) fields_list) +:+ nl).
Proof. intros H. unfold get_one_line. by rewrite (mapM_getitem _ _ H). Qed.

Lemma get_one_line_missing (d : gmap string string)
    (fields_list : list string) (x : string) :
  x ∈ fields_list → d !! x = None →
  get_one_line d fields_list = Raise KeyError.
Proof.
  intros Hx Hd. unfold get_one_line.
  assert (mapM (getitem d) fields_list = Raise KeyError) as ->; [|done].
  induction fields_list as [|y l IH]; [by apply elem_of_nil in Hx|].
  simpl. destruct (d !! y) as [v|] eqn:Hy.
  - rewrite (getitem_Some _ _ _ Hy). simpl.
    apply elem_of_cons in Hx as [->|Hx]; [congruence|]. by rewrite IH.
  - unfold getitem. by rewrite Hy.
Qed.

Lemma output_fields_expanded (flds : list string) (x : string) :
  x ∈ _fields_edin ++ flds ++ _fields_gisaid → x ∈ required_fields ++ flds.
Proof.
  unfold required_fields. rewrite !elem_of_app. tauto.
Qed.

(** *** Reading the registry *)

(** The fields of one line of the registry and the dict made of them. *)
Definition fields_of (line : string) : list string :=
  split "," (strip isspace line).

Definition row_record (keys opt : list string) (line : string)
  : gmap string string :=
  csv_record keys required_fields opt (fields_of line).

Section csv.

Variables keys opt : list string.

Let rec : string → gmap string string := row_record keys opt.

Lemma getitem_csv_record (l : list string) :
  getitem (csv_record keys required_fields opt l) "covv_accession_id"
  = Ok (accession_id (csv_record keys required_fields opt l)).
Proof. apply getitem_accession_id. Qed.

Lemma read_csv_line_ok (line : string)
    (st : list string * gmap string (gmap string string)) :
  length (fields_of line) = length keys →
  read_csv_line keys required_fields opt st line
  = Ok (st.1 ++ [accession_id (rec line)],
        <[accession_id (rec line) := rec line]> st.2).
Proof.
  intros Hline. unfold read_csv_line. cbv zeta.
  change (split "," (strip isspace line)) with (fields_of line).
  rewrite Hline, Nat.eqb_refl. simpl. rewrite getitem_csv_record. done.
Qed.

Lemma read_csv_line_bad (line : string)
    (st : list string * gmap string (gmap string string)) :
  length (fields_of line) ≠ length keys →
  read_csv_line keys required_fields opt st line = Raise AttributeError.
Proof.
  intros Hline. unfold read_csv_line. cbv zeta.
  change (split "," (strip isspace line)) with (fields_of line).
  apply Nat.eqb_neq in Hline. by rewrite Hline.
Qed.

Lemma read_csv_lines (lines : list string)
    (st : list string * gmap string (gmap string string)) :
  Forall (λ line, length (fields_of line) = length keys) lines →
  foldlM (read_csv_line keys required_fields opt) st lines
  = Ok (st.1 ++ map (λ line, accession_id (rec line)) lines,
        store_of rec lines st.2).
Proof.
  intros Hall. revert st.
  induction Hall as [|line lines Hline _ IH]; intros [order store].
  - simpl. by rewrite app_nil_r.
  - cbn [foldlM]. rewrite (read_csv_line_ok _ _ Hline). simpl.
    rewrite IH. simpl. by rewrite <- app_assoc.
Qed.


Lemma read_csv_lines_inv (lines : list string)
    (st st' : list string * gmap string (gmap string string)) :
  foldlM (read_csv_line keys required_fields opt) st lines = Ok st' →
  Forall (λ line, length (fields_of line) = length keys) lines.
Proof.
  revert st. induction lines as [|line lines IH]; intros st H; [constructor|].
  cbn [foldlM] in H.
  destruct (decide (length (fields_of line) = length keys)) as [Hlen|Hlen].
  - rewrite (read_csv_line_ok _ _ Hlen) in H. simpl in H.
    constructor; [done|]. by eapply IH.
  - by rewrite (read_csv_line_bad _ _ Hlen) in H.
Qed.

End csv.

(** What a loaded registry consists of. *)
Lemma load_registry_inv (args_csv : option (list string))
    (flds old_list : list string)
    (old_dict : gmap string (gmap string string)) :
  load_registry args_csv = Ok (flds, (old_list, old_dict)) →
  (args_csv = None ∧ flds = fields ∧ old_list = [] ∧ old_dict = ∅)
  ∨ ∃ first lines,
      let csv_header := fields_of first in
      args_csv = Some (first :: lines)
      ∧ (∀ x, x ∈ required_fields → x ∈ csv_header)
      ∧ flds = extend_fields csv_header
      ∧ Forall (λ line, length (fields_of line) = length csv_header) lines
      ∧ old_list = map (λ line, accession_id (row_record csv_header flds line))
                       lines
      ∧ old_dict = store_of (row_record csv_header flds) lines ∅.
Proof.
  unfold load_registry.
  destruct args_csv as [[|first lines]|]; cbn [mbind result_bind].
  - discriminate.
  - change (split "," (strip isspace first)) with (fields_of first).
    match goal with
    | |- context [forallb ?f required_fields] =>
        destruct (forallb f required_fields) eqn:Hreq; [|discriminate]
    end.
    cbv zeta. unfold get_csv_order_and_record_dict.
    change (split "," (strip isspace first)) with (fields_of first).
    match goal with
    | |- context [foldlM ?f ?s lines] =>
        destruct (foldlM f s lines) as [st|] eqn:Hread; simpl;
          [|discriminate]
    end.
    intros [= <- Hst]. right. exists first, lines. cbv zeta.
    pose proof (read_csv_lines_inv _ _ _ _ _ Hread) as Hall.
    rewrite (read_csv_lines _ _ _ _ Hall) in Hread. injection Hread as <-.
    simpl in Hst. injection Hst as <- <-.
    repeat split; try done.
    intros x Hx. rewrite forallb_forall in Hreq.
    apply list_elem_of_In, Hreq in Hx. by apply bool_decide_eq_true in Hx.
  - intros [= <- <- <-]. by left.
Qed.

(** Every key of the output is a key of every record of the registry, so
    its rows can always be written. *)
Lemma registry_rows_written (args_csv : option (list string))
    (flds old_list : list string)
    (old_dict : gmap string (gmap string string)) :
  load_registry args_csv = Ok (flds, (old_list, old_dict)) →
  let out_fields := _fields_edin ++ flds ++ _fields_gisaid in
  ∃ old_lines,
    mapM (λ record, do ← getitem old_dict record; get_one_line do out_fields)
         old_list = Ok old_lines
    ∧ Forall2 (λ k line, ∃ d, old_dict !! k = Some d
                              ∧ get_one_line d out_fields = Ok line)
              old_list old_lines.
Proof.
  intros Hload out_fields. apply mapM_Ok_spec, Forall_forall. intros k Hk.
  destruct (load_registry_inv _ _ _ _ Hload)
    as [(_ & _ & -> & _)|(first & lines & _ & _ & _ & _ & -> & ->)].
  { by apply elem_of_nil in Hk. }
  destruct (store_of_elem _ _ _ Hk) as (pre & line & post & _ & _ & _ & Hd).
  rewrite (getitem_Some _ _ _ Hd). simpl.
  rewrite get_one_line_Ok.
  - eexists. split; [done|]. eexists. split; [done|].
    by rewrite get_one_line_Ok
      by (intros x Hx; apply expand_dict_fills, output_fields_expanded, Hx).
  - intros x Hx. apply expand_dict_fills, output_fields_expanded, Hx.
Qed.

End GisaidRegistryFacts.

Module GisaidRunTheorems.
Import Py Gisaid GisaidFacts GisaidRunFacts GisaidRun GisaidRegistryFacts.

(** A [result] that is a value, as a boolean. *)
Definition is_Ok_b {A} (r : result A) : bool :=
  match r with
  | Ok _ => true
  | Raise _ => false
  end.

Lemma is_Ok_b_true {A} (r : result A) : is_Ok_b r = true → ∃ a, r = Ok a.
Proof. destruct r; [eauto|discriminate]. Qed.

Section run.

Variable lookup : string → bool.
Variable get_travel_history : gmap string string → gmap string string.
Variable mydate : string.

(** The rows of the output.  Whenever the registry is loaded and every
    record of the dump that is not in the registry can be updated and
    written, the converter returns the header, then one row for each row
    of the registry in the order of the registry, each written from the
    dict read from the registry, then one row for each line of the dump
    whose identifier is not in the registry, in the order of the dump,
    each written from the updated record that the store holds for its
    identifier. *)
Theorem converter_writes_old_then_new (json : list (gmap string string))
    (args_csv : option (list string)) (omitted_IDs : gset string)
    (args_lineages : option (gmap string string))
    (flds old_list order : list string)
    (old_dict store : gmap string (gmap string string)) :
  let out_fields := _fields_edin ++ flds ++ _fields_gisaid in
  let row := new_row lookup get_travel_history mydate omitted_IDs
                     args_lineages flds in
  load_registry args_csv = Ok (flds, (old_list, old_dict)) →
  get_json_order_and_record_dict json required_fields flds
  = Ok (order, store) →
  (∀ k, k ∈ order → k ∉ old_list →
        ∃ d line, store !! k = Some d ∧ row d = Ok line) →
  ∃ old_lines rows,
    gisaid_json_2_metadata lookup get_travel_history mydate json args_csv
                           omitted_IDs args_lineages
    = Ok ((join "," out_fields +:+ nl) :: old_lines ++ rows)
    ∧ Forall2 (λ k line, ∃ d, old_dict !! k = Some d
                              ∧ get_one_line d out_fields = Ok line)
              old_list old_lines
    ∧ Forall2 (λ k line, ∃ d, store !! k = Some d ∧ row d = Ok line)
              (filter (λ x, x ∉ old_list) order) rows.
Proof.
  intros out_fields row Hload Hjson Hnew.
  destruct (registry_rows_written _ _ _ _ Hload) as (old_lines & Hold & Hall).
  destruct (converter_run lookup get_travel_history mydate omitted_IDs
              args_lineages json args_csv flds old_list order old_dict
              store old_lines Hload Hjson Hold) as (rows & Hrun & Hrows).
  { intros k [Hk Hk']%list_elem_of_filter. by apply Hnew. }
  by exists old_lines, rows.
Qed.

(** C10, amended.  An identifier that is not in the registry and stands
    on two lines of the dump.  The store keeps one record for it, the one
    of the later line, and the list of new identifiers names it twice:
    whenever the registry is loaded and every new record can be updated
    and written, the output has two equal rows for it, at the places of
    the two lines among the new rows, both written from the updated record
    of the later line. *)
Theorem duplicate_accession_written_twice (json : list (gmap string string))
    (args_csv : option (list string)) (omitted_IDs : gset string)
    (args_lineages : option (gmap string string))
    (flds old_list : list string)
    (old_dict : gmap string (gmap string string))
    (before between after : list (gmap string string))
    (a b : gmap string string) :
  let rec := json_record required_fields flds in
  let id := λ j, accession_id (rec j) in
  let row := new_row lookup get_travel_history mydate omitted_IDs
                     args_lineages flds in
  let new := filter (λ x, x ∉ old_list) in
  load_registry args_csv = Ok (flds, (old_list, old_dict)) →
  json = before ++ a :: between ++ b :: after →
  id a = id b → id b ∉ map id after → id b ∉ old_list →
  (∀ pre j post, json = pre ++ j :: post → id j ∉ map id post →
                 id j ∉ old_list → ∃ line, row (rec j) = Ok line) →
  ∃ line head mid tail,
    gisaid_json_2_metadata lookup get_travel_history mydate json args_csv
                           omitted_IDs args_lineages
    = Ok (head ++ line :: mid ++ line :: tail)
    ∧ row (rec b) = Ok line
    ∧ length head = 1 + length old_list + length (new (map id before))
    ∧ length mid = length (new (map id between))
    ∧ length tail = length (new (map id after)).
Proof.
  intros rec id row new Hload Hjson Hab Hafter Hnew Hrows.
  pose proof (get_json_order_and_record_dict_spec flds json) as Hread.
  fold rec in Hread. change (λ j, accession_id (rec j)) with id in Hread.
  assert (store_of rec json ∅ !! id b = Some (rec b)) as Hb.
  { rewrite Hjson.
    replace (before ++ a :: between ++ b :: after)
      with ((before ++ a :: between) ++ b :: after)
      by (by rewrite <- app_assoc).
    by apply store_of_last. }
  destruct (registry_rows_written _ _ _ _ Hload) as (old_lines & Hold' & Hold).
  destruct (converter_run lookup get_travel_history mydate omitted_IDs
              args_lineages json args_csv flds old_list _ old_dict _
              old_lines Hload Hread Hold')
    as (rows & Hrun & Hnewrows).
  { intros k [Hk' Hk]%list_elem_of_filter.
    destruct (store_of_elem rec json k Hk)
      as (pre & j & post & Hdec & <- & Hpost & Hstore).
    destruct (Hrows pre j post Hdec Hpost Hk') as [line Hline].
    by exists (rec j), line. }
  fold row in Hnewrows. fold new in Hnewrows.
  assert (new (map id json)
          = new (map id before) ++ id b :: new (map id between)
            ++ id b :: new (map id after)) as Hlist.
  { rewrite Hjson. unfold new.
    rewrite map_app, filter_app, map_cons, filter_cons_True
      by (by rewrite Hab).
    rewrite map_app, filter_app, map_cons, filter_cons_True by done.
    by rewrite Hab. }
  rewrite Hlist in Hnewrows.
  apply Forall2_app_inv_l in Hnewrows
    as (r1 & rows' & Hr1 & Hrows' & ->).
  apply Forall2_cons_inv_l in Hrows'
    as (l1 & rows'' & (d1 & Hd1 & Hl1) & Hrows'' & ->).
  apply Forall2_app_inv_l in Hrows''
    as (r2 & rows' & Hr2 & Hrows' & ->).
  apply Forall2_cons_inv_l in Hrows'
    as (l2 & r3 & (d2 & Hd2 & Hl2) & Hr3 & ->).
  rewrite Hb in Hd1, Hd2. injection Hd1 as <-. injection Hd2 as <-.
  assert (l2 = l1) as -> by congruence.
  exists l1, ((join "," (_fields_edin ++ flds ++ _fields_gisaid) +:+ nl)
              :: old_lines ++ r1), r2, r3.
  split; [|split; [done|split; [|split]]].
  - rewrite Hrun. simpl. by rewrite <- app_assoc.
  - simpl. rewrite length_app.
    apply Forall2_length in Hold, Hr1. lia.
  - symmetry. by eapply Forall2_length.
  - symmetry. by eapply Forall2_length.
Qed.

End run.

Lemma converter_writes_old_then_new_witness :
  ∃ old_lines rows,
    gisaid_json_2_metadata lookup_three no_travel_history "2020-04-01"
                           dump_two None ∅ None
    = Ok ((join "," (_fields_edin ++ fields ++ _fields_gisaid) +:+ nl)
          :: old_lines ++ rows)
    ∧ Forall2 (λ k line,
                 ∃ d, (∅ : gmap string (gmap string string)) !! k = Some d
                      ∧ get_one_line
                          d (_fields_edin ++ fields ++ _fields_gisaid)
                        = Ok line)
              [] old_lines
    ∧ Forall2 (λ k line,
                 ∃ d, store_of (json_record required_fields fields)
                               dump_two ∅ !! k = Some d
                      ∧ new_row lookup_three no_travel_history "2020-04-01"
                                ∅ None fields d = Ok line)
              (filter (λ x, x ∉ [])
                 (map (λ j, accession_id
                              (json_record required_fields fields j))
                      dump_two))
              rows.
Proof.
  apply (converter_writes_old_then_new lookup_three no_travel_history
           "2020-04-01" dump_two None ∅ None fields []).
  - reflexivity.
  - apply get_json_order_and_record_dict_spec.
  - intros k Hk _.
    destruct (store_of_elem _ _ _ Hk)
      as (pre & j & post & Hdec & _ & _ & Hstore).
    exists (json_record required_fields fields j).
    assert (Forall (λ j, is_Ok_b (new_row lookup_three no_travel_history
                                    "2020-04-01" ∅ None fields
                                    (json_record required_fields fields j))
                         = true) dump_two) as Hall.
    { constructor; [vm_compute; reflexivity|].
      constructor; [vm_compute; reflexivity|]. constructor. }
    rewrite Forall_forall in Hall.
    assert (j ∈ dump_two) as Hj.
    { rewrite Hdec. apply elem_of_app. right. left. }
    destruct (is_Ok_b_true _ (Hall j Hj)) as [line Hline].
    exists line. split; [exact Hstore|exact Hline].
Defined.

Lemma duplicate_accession_written_twice_witness :
  ∃ line head mid tail,
    gisaid_json_2_metadata lookup_three no_travel_history "2020-04-01"
                           dump_repeated None ∅ None
    = Ok (head ++ line :: mid ++ line :: tail)
    ∧ new_row lookup_three no_travel_history "2020-04-01" ∅ None fields
        (json_record required_fields fields
           (json_line "EPI_ISL_000002" "hCoV-19/Wuhan/B/2020"
                      "Asia / China / Hubei, Wuhan" "2020-01-20"))
      = Ok line
    ∧ length head = 1 + 0 + 0
    ∧ length mid = 1
    ∧ length tail = 0.
Proof.
  apply (duplicate_accession_written_twice lookup_three no_travel_history
           "2020-04-01" dump_repeated None ∅ None fields [] ∅ []
           [json_line "EPI_ISL_000001" "hCoV-19/England/A/2020"
                      "Europe / United Kingdom / England" "2020-03-01"]
           []
           (json_line "EPI_ISL_000002" "hCoV-19/Wuhan/B/2020"
                      "Asia / China / Hubei, Wuhan" "2020-01")).
  - reflexivity.
  - reflexivity.
  - vm_compute. reflexivity.
  - apply not_elem_of_nil.
  - apply not_elem_of_nil.
  - intros pre j post Hdec _ _.
    assert (Forall (λ j, is_Ok_b (new_row lookup_three no_travel_history
                                    "2020-04-01" ∅ None fields
                                    (json_record required_fields fields j))
                         = true) dump_repeated) as Hall.
    { constructor; [vm_compute; reflexivity|].
      constructor; [vm_compute; reflexivity|].
      constructor; [vm_compute; reflexivity|]. constructor. }
    rewrite Forall_forall in Hall. apply is_Ok_b_true, Hall.
    rewrite Hdec. apply elem_of_app. right. left.
Defined.

(** C10 as stated fails where the run stops: a dump with an identifier
    on two lines gives an error and no row when the registry lacks a
    mandatory column, when a lineage table is given and the name of the
    virus has no third token, and when the country lookup rejects the
    country of the record. *)
Lemma duplicate_accession_and_error :
  gisaid_json_2_metadata lookup_three no_travel_history "2020-04-01"
    dump_repeated (Some registry_without_columns) ∅ None
  = Raise SystemExit
  ∧ gisaid_json_2_metadata lookup_three no_travel_history "2020-04-01"
      dump_short_name None ∅ (Some ∅)
    = Raise IndexError
  ∧ gisaid_json_2_metadata lookup_three no_travel_history "2020-04-01"
      [ json_line "EPI_ISL_000003" "hCoV-19/N/C/2020" "Europe / Narnia"
                  "2020-01-05";
        json_line "EPI_ISL_000003" "hCoV-19/N/C/2020" "Europe / Narnia"
                  "2020-01-06" ]
      None ∅ None
    = Raise AttributeError
  ∧ ¬ (∀ (json : list (gmap string string))
         (args_lineages : option (gmap string string))
         (a b : gmap string string),
         json = [a; b] →
         a !! "covv_accession_id" = b !! "covv_accession_id" →
         ∃ out, gisaid_json_2_metadata lookup_three no_travel_history
                  "2020-04-01" json None ∅ args_lineages = Ok out).
Proof.
  split; [vm_compute; reflexivity|].
  split; [vm_compute; reflexivity|].
  split; [vm_compute; reflexivity|].
  intros H.
  destruct (H dump_short_name (Some ∅) _ _ eq_refl eq_refl)
    as [out Hout].
  vm_compute in Hout. discriminate.
Qed.

End GisaidRunTheorems.

Module GisaidRoundTripFacts.
Import Py Gisaid GisaidFacts GisaidRunFacts GisaidRun GisaidRegistryFacts.

(** *** Splitting and joining a line *)

Lemma split_nonempty (sep : ascii) (s : string) : split sep s ≠ [].
Proof.
  destruct s as [|c s]; simpl; [done|].
  destruct (Ascii.eqb c sep); [done|]. by destruct (split sep s).
Qed.



(** *** The dict of a row *)





(** *** The columns of the output *)




(** *** The store of a registry without repeated identifiers *)



End GisaidRoundTripFacts.

Module GisaidRegistryTheorems.
Import Py Gisaid GisaidFacts GisaidRunFacts GisaidRun GisaidRegistryFacts.
Import GisaidRoundTripFacts.


Section run.

Variable lookup : string → bool.
Variable get_travel_history : gmap string string → gmap string string.
Variable mydate : string.


End run.



End GisaidRegistryTheorems.

(** * Further properties of the code *)

Module SamExtras.
Import Py Sam SamFacts SamLength.

Lemma get_one_string_exact_length_witness :
  ∃ s rest,
    get_one_string {| POS := 1; CIGAR := chars "2M1I1D"; SEQ := chars "ACG" |}
                   6
    = Ok (Some s)
    ∧ s = replicate (Z.to_nat 1) star ++ rest
    ∧ Z.of_nat (length s) = 6%Z.
Proof.
  apply (get_one_string_exact_length
           {| POS := 1; CIGAR := chars "2M1I1D"; SEQ := chars "ACG" |} 6).
  - simpl. lia.
  - vm_compute. repeat constructor; eexists; reflexivity.
  - vm_compute. discriminate.
Defined.

End SamExtras.

Module GisaidExtras.
Import Py Gisaid GisaidFacts GisaidRunFacts GisaidRun GisaidRegistryFacts.

Section run.

Variable lookup : string → bool.
Variable get_travel_history : gmap string string → gmap string string.
Variable mydate : string.


(** A registry whose header lacks a mandatory column ends the run with
    [SystemExit] before any row of the registry or line of the dump is
    read. *)
Theorem missing_column_exits (json : list (gmap string string))
    (first : string) (lines : list string) (x : string)
    (omitted_IDs : gset string)
    (args_lineages : option (gmap string string)) :
  x ∈ required_fields → x ∉ fields_of first →
  gisaid_json_2_metadata lookup get_travel_history mydate json
    (Some (first :: lines)) omitted_IDs args_lineages
  = Raise SystemExit.
Proof.
  intros Hx Hnot.
  assert (load_registry (Some (first :: lines)) = Raise SystemExit) as Hload.
  { unfold load_registry. cbn [mbind result_bind].
    change (split "," (strip isspace first)) with (fields_of first).
    assert (forallb (λ x, bool_decide (x ∈ fields_of first)) required_fields
            = false) as ->; [|done].
    apply not_true_is_false. intros Hall.
    rewrite forallb_forall in Hall.
    apply list_elem_of_In, Hall, bool_decide_eq_true in Hx. done. }
  unfold gisaid_json_2_metadata. by rewrite Hload.
Qed.

End run.


Lemma missing_column_exits_witness :
  gisaid_json_2_metadata lookup_three no_travel_history "2020-04-01"
    dump_two
    (Some (hd "" registry_without_columns :: tail registry_without_columns))
    ∅ None
  = Raise SystemExit.
Proof.
  apply (missing_column_exits lookup_three no_travel_history "2020-04-01"
           dump_two (hd "" registry_without_columns)
           (tail registry_without_columns) "covv_location" ∅ None).
  - apply (bool_decide_unpack _). vm_compute. exact I.
  - apply (bool_decide_unpack _). vm_compute. exact I.
Defined.

(** *** Filling in the fields *)

Lemma add_missing_lookup (l : list string) (d : gmap string string)
    (k : string) :
  foldl (λ d x, match d !! x with
                | Some _ => d
                | None => <[x := ""]> d
                end) d l !! k
  = match d !! k with
    | Some v => Some v
    | None => if bool_decide (k ∈ l) then Some "" else None
    end.
Proof.
  revert d. induction l as [|x l IH]; intros d; simpl.
  - by destruct (d !! k).
  - rewrite IH.
    assert (bool_decide (k ∈ x :: l)
            = bool_decide (k = x) || bool_decide (k ∈ l)) as ->.
    { rewrite <- bool_decide_or. apply bool_decide_ext, elem_of_cons. }
    destruct (d !! x) as [vx|] eqn:Hx.
    + destruct (d !! k) as [v|] eqn:Hk; [done|].
      rewrite (bool_decide_eq_false_2 (k = x)); [done|].
      intros ->. congruence.
    + destruct (decide (k = x)) as [->|Hne].
      * rewrite lookup_insert_eq, Hx. by rewrite bool_decide_eq_true_2.
      * rewrite lookup_insert_ne by done.
        by rewrite (bool_decide_eq_false_2 (k = x)).
Qed.

(** [expand_dict] keeps every value that the dict holds, gives the empty
    string to every required or optional field that it lacks, and adds
    no other key. *)
Theorem expand_dict_lookup (d : gmap string string)
    (fields_list_required fields_list_optional : list string) (k : string) :
  expand_dict d fields_list_required fields_list_optional !! k
  = match d !! k with
    | Some v => Some v
    | None =>
        if bool_decide (k ∈ fields_list_required ++ fields_list_optional)
        then Some "" else None
    end.
Proof.
  unfold expand_dict. rewrite !add_missing_lookup.
  assert (bool_decide (k ∈ fields_list_required ++ fields_list_optional)
          = bool_decide (k ∈ fields_list_required)
            || bool_decide (k ∈ fields_list_optional)) as ->.
  { rewrite <- bool_decide_or. apply bool_decide_ext, elem_of_app. }
  destruct (d !! k) as [v|]; [done|].
  by destruct (bool_decide (k ∈ fields_list_required)).
Qed.

(** *** Commas *)

Lemma replace_char_from (c : ascii) (s : list ascii) :
  replace_from [c] [] 0 s = filter (λ x, x ≠ c) s.
Proof.
  induction s as [|x s IH]; [done|].
  cbn [replace_from is_prefix]. unfold is_prefix. simpl.
  destruct (Ascii.eqb_spec c x) as [->|Hne]; simpl.
  - rewrite IH. by rewrite filter_cons_False by (intros H; by apply H).
  - rewrite IH. rewrite filter_cons_True; [done|]. congruence.
Qed.

(** [fix_gisaid_json_dict] keeps the keys and takes every comma, and
    nothing else, out of every value. *)
Theorem fix_gisaid_json_dict_lookup (gisaid_json_dict : gmap string string)
    (k : string) :
  fix_gisaid_json_dict gisaid_json_dict !! k
  = (λ y, str_of (filter (λ c, c ≠ ","%char) (chars y)))
      <$> gisaid_json_dict !! k.
Proof.
  unfold fix_gisaid_json_dict. rewrite lookup_fmap.
  destruct (gisaid_json_dict !! k) as [y|]; [|done]. simpl.
  unfold remove_commas, replace. simpl. by rewrite replace_char_from.
Qed.

End GisaidExtras.

Module GisaidFieldExtras.
Import Py Gisaid GisaidFacts.

Lemma search_suffix (m : matcher) (pre s : list ascii) (n : nat) :
  s ≠ [] → m s = Some n → is_Some (search m (pre ++ s)).
Proof.
  intros Hne Hm. induction pre as [|c pre IH]; simpl.
  - destruct s as [|c s]; [done|]. simpl. by rewrite Hm.
  - destruct (m (c :: pre ++ s)); [done|exact IH].
Qed.

(** The check of the collection date is not anchored and checks no
    range: a date passes, and the record is returned as it is, as soon as
    four digits, a hyphen, two digits, a hyphen and two digits stand
    somewhere in the text. *)
Theorem date_check_accepts_any_match (dict : gmap string string)
    (date : string) (before after : list ascii)
    (y1 y2 y3 y4 m1 m2 d1 d2 : ascii) :
  dict !! "covv_collection_date" = Some date →
  chars date
  = before ++ [y1; y2; y3; y4; "-"; m1; m2; "-"; d1; d2]%char ++ after →
  forallb is_digit [y1; y2; y3; y4; m1; m2; d1; d2] = true →
  check_gisaid_date dict = Ok dict.
Proof.
  intros Hdate Hchars Hdigits. unfold check_gisaid_date.
  rewrite (getitem_Some _ _ _ Hdate). simpl. rewrite Hchars.
  destruct (search_suffix r_date before
              ([y1; y2; y3; y4; "-"; m1; m2; "-"; d1; d2]%char ++ after) 10)
    as [found ->]; [done| |done].
  simpl. simpl in Hdigits. by rewrite Hdigits.
Qed.

Lemma date_check_accepts_any_match_witness :
  check_gisaid_date
    (json_line "EPI_ISL_000006" "hCoV-19/X/Y/2020" "Asia / China"
               "about 2020-13-45?")
  = Ok (json_line "EPI_ISL_000006" "hCoV-19/X/Y/2020" "Asia / China"
                  "about 2020-13-45?").
Proof.
  apply (date_check_accepts_any_match _ "about 2020-13-45?" (chars "about ")
           (chars "?") "2" "0" "2" "0" "1" "3" "4" "5").
  - vm_compute. reflexivity.
  - reflexivity.
  - reflexivity.
Defined.

(** A location whose second token is one of the four home nations: the
    country becomes [UK], the nation the first subdivision and the third
    token the second one, whenever the country lookup knows
    [United Kingdom]. *)
Theorem home_nation_levels (lookup : string → bool)
    (d : gmap string string) (loc nation : string) :
  d !! "covv_location" = Some loc →
  location_strings loc !! 1 = Some nation →
  nation ∈ ["England"; "Northern Ireland"; "Scotland"; "Wales"] →
  lookup "United Kingdom" = true →
  ∃ d',
    get_admin_levels_from_json_dict lookup d (PyBool true) = Ok d'
    ∧ d' !! "edin_admin_0" = Some "UK"
    ∧ d' !! "edin_admin_1" = Some nation
    ∧ d' !! "edin_admin_2" = Some (default "" (location_strings loc !! 2)).
Proof.
  intros Hloc Hnation Hin Hlook.
  assert (derive_levels (location_strings loc)
          = ("United Kingdom", nation,
             default "" (location_strings loc !! 2))) as Hlev.
  { unfold derive_levels. rewrite Hnation. simpl.
    repeat (apply elem_of_cons in Hin as [->|Hin]; [reflexivity|]).
    by apply elem_of_nil in Hin. }
  pose proof (get_admin_levels_passes lookup (PyBool true) d loc Hloc) as Hrun.
  unfold derived_country in Hrun. rewrite Hlev in Hrun.
  specialize (Hrun (or_intror (or_intror Hlook))).
  eexists. split; [exact Hrun|].
  pose proof (get_admin_levels_Ok lookup (PyBool true) d _ loc Hloc Hrun)
    as Hout.
  rewrite Hlev in Hout. exact Hout.
Qed.

Lemma home_nation_levels_witness :
  ∃ d',
    get_admin_levels_from_json_dict lookup_three
      (json_line "EPI_ISL_000007" "hCoV-19/England/E/2020"
                 "Europe / England / Greater London" "2020-03-03")
      (PyBool true) = Ok d'
    ∧ d' !! "edin_admin_0" = Some "UK"
    ∧ d' !! "edin_admin_1" = Some "England"
    ∧ d' !! "edin_admin_2"
      = Some (default "" (location_strings
                            "Europe / England / Greater London" !! 2)).
Proof.
  apply (home_nation_levels lookup_three _
           "Europe / England / Greater London" "England").
  - vm_compute. reflexivity.
  - vm_compute. reflexivity.
  - left.
  - vm_compute. reflexivity.
Defined.

End GisaidFieldExtras.

Module AnonymizeExtras.
Import Py Anonymize.

(** A run that ends with a value, as a boolean. *)
Definition returns {A} (x : option (result A)) : bool :=
  match x with
  | Some (Ok _) => true
  | _ => false
  end.

Lemma returns_inv {A} (x : option (result A)) :
  returns x = true → ∃ a, x = Some (Ok a).
Proof. destruct x as [[a|]|]; [eauto|discriminate..]. Qed.

Lemma fresh_name_spec (random_names : list string) (draws draws' : list nat)
    (name : string) :
  fresh_name random_names draws = Some (name, draws') →
  (name ∉ random_names)
  ∧ ∃ used r, draws = used ++ r :: draws' ∧ name = get_random_name r.
Proof.
  induction draws as [|r draws IH]; simpl; [discriminate|].
  case_bool_decide as Hin.
  - intros H. destruct (IH H) as (Hnot & used & r' & -> & ->).
    split; [done|]. by exists (r :: used), r'.
  - intros [= <- <-]. split; [done|]. by exists [], r.
Qed.

Lemma anonymize_names_spec (metadata_list : list (gmap string string)) :
  ∀ (random_names : list string) (draws : list nat)
    (out : list (gmap string string)),
  anonymize_names metadata_list random_names draws = Some (Ok out) →
  NoDup random_names →
  ∃ names,
    out = zip_with (λ e n, <["anonymized_sequence_name" := n]> e)
                   metadata_list names
    ∧ Forall2 (λ e n, ∃ s, e !! "sequence_name" = Some s
                           ∧ if is_redacted s
                             then ∃ r, r ∈ draws ∧ n = get_random_name r
                             else n = s)
              metadata_list names
    ∧ NoDup (random_names
             ++ omap (λ en, match en.1 !! "sequence_name" with
                            | Some s => if is_redacted s then Some en.2
                                        else None
                            | None => None
                            end)
                     (zip metadata_list names)).
Proof.
  induction metadata_list as [|entry rest IH];
    intros random_names draws out Hrun Hnd.
  - injection Hrun as <-. exists []. split; [done|]. split; [constructor|].
    simpl. by rewrite app_nil_r.
  - simpl in Hrun. unfold getitem in Hrun.
    destruct (entry !! "sequence_name") as [s|] eqn:Hs; [|discriminate].
    destruct (is_redacted s) eqn:Hred.
    + destruct (fresh_name random_names draws) as [[name draws']|] eqn:Hfresh;
        simpl in Hrun; [|discriminate].
      destruct (fresh_name_spec _ _ _ _ Hfresh)
        as (Hnot & used & r & -> & ->).
      destruct (anonymize_names rest _ draws') as [[out'|]|] eqn:Hrest;
        try discriminate.
      injection Hrun as <-.
      destruct (IH _ _ _ Hrest) as (names & -> & Hall & Hnd').
      { apply NoDup_app. split; [done|]. split; [|apply NoDup_singleton].
        intros x Hx ->%list_elem_of_singleton. done. }
      exists (get_random_name r :: names). split; [done|]. split.
      * constructor.
        -- exists s. split; [done|]. rewrite Hred. exists r. split; [|done].
           apply elem_of_app. right. left.
        -- eapply Forall2_impl; [exact Hall|].
           intros e n (s' & Hs' & Hn). exists s'. split; [done|].
           destruct (is_redacted s'); [|done].
           destruct Hn as (r' & Hr' & ->). exists r'. split; [|done].
           apply elem_of_app. right. by right.
      * simpl. rewrite Hs, Hred. by rewrite <- app_assoc in Hnd'.
    + simpl in Hrun.
      destruct (anonymize_names rest _ draws) as [[out'|]|] eqn:Hrest;
        try discriminate.
      injection Hrun as <-.
      destruct (IH _ _ _ Hrest Hnd) as (names & -> & Hall & Hnd').
      exists (s :: names). split; [done|]. split.
      * constructor; [|done]. exists s. split; [done|]. by rewrite Hred.
      * simpl. by rewrite Hs, Hred.
Qed.

(** The pseudonyms of one run.  When the loop over the entries ends, every
    entry has its new field: the sequence name itself where the name does
    not start with one of the four nations, and otherwise [COG] followed
    by one of the numbers drawn; the names so made are pairwise
    distinct. *)
Theorem pseudonyms_are_distinct (metadata_list : list (gmap string string))
    (draws : list nat) (out : list (gmap string string)) :
  anonymize_names metadata_list [] draws = Some (Ok out) →
  ∃ names,
    out = zip_with (λ e n, <["anonymized_sequence_name" := n]> e)
                   metadata_list names
    ∧ Forall2 (λ e n, ∃ s, e !! "sequence_name" = Some s
                           ∧ if is_redacted s
                             then ∃ r, r ∈ draws ∧ n = get_random_name r
                             else n = s)
              metadata_list names
    ∧ NoDup (omap (λ en, match en.1 !! "sequence_name" with
                         | Some s => if is_redacted s then Some en.2
                                     else None
                         | None => None
                         end)
                  (zip metadata_list names)).
Proof.
  intros Hrun.
  destruct (anonymize_names_spec _ _ _ _ Hrun (NoDup_nil_2))
    as (names & Hout & Hall & Hnd).
  by exists names.
Qed.

Lemma pseudonyms_are_distinct_witness :
  ∃ out names,
    anonymize_names
      [ entry_of "England/A/2020" "Kent"; entry_of "Spain/B/2020" "Madrid";
        entry_of "Wales/C/2020" "Gwent" ] [] [42; 42; 7]
    = Some (Ok out)
    ∧ out = zip_with (λ e n, <["anonymized_sequence_name" := n]> e)
              [ entry_of "England/A/2020" "Kent";
                entry_of "Spain/B/2020" "Madrid";
                entry_of "Wales/C/2020" "Gwent" ] names
    ∧ NoDup (omap (λ en, match en.1 !! "sequence_name" with
                         | Some s => if is_redacted s then Some en.2
                                     else None
                         | None => None
                         end)
                  (zip [ entry_of "England/A/2020" "Kent";
                         entry_of "Spain/B/2020" "Madrid";
                         entry_of "Wales/C/2020" "Gwent" ] names)).
Proof.
  destruct (returns_inv
              (anonymize_names
                 [ entry_of "England/A/2020" "Kent";
                   entry_of "Spain/B/2020" "Madrid";
                   entry_of "Wales/C/2020" "Gwent" ] [] [42; 42; 7]))
    as [out Hrun]; [vm_compute; reflexivity|].
  destruct (pseudonyms_are_distinct _ _ _ Hrun) as (names & Hout & _ & Hnd).
  exists out, names. split; [exact Hrun|]. split; [exact Hout|exact Hnd].
Defined.

End AnonymizeExtras.

Module GisaidSideFileExtras.
Import Py Gisaid GisaidFacts.

(** *** The omission files *)







(** *** The lineage file *)

Definition lineage_fields (line : string) : list string :=
  split "," (rstrip isspace line).

Lemma lineage_row_ok (myDict : gmap string string) (line : string) :
  3 ≤ length (lineage_fields line) →
  (let l := split "," (rstrip isspace line) in
   taxon ← list_getitem l 0;
   ID ← list_getitem l 1;
   lineage ← list_getitem l 2;
   Ok (<[ID := lineage]> myDict))
  = Ok (<[default "" (lineage_fields line !! 1)
          := default "" (lineage_fields line !! 2)]> myDict).
Proof.
  intros Hlen. cbv zeta.
  change (split "," (rstrip isspace line)) with (lineage_fields line).
  destruct (lineage_fields line) as [|t [|i [|l rest]]]; simpl in *; try lia.
  done.
Qed.

Lemma lineage_row_short (myDict : gmap string string) (line : string) :
  length (lineage_fields line) < 3 →
  (let l := split "," (rstrip isspace line) in
   taxon ← list_getitem l 0;
   ID ← list_getitem l 1;
   lineage ← list_getitem l 2;
   Ok (<[ID := lineage]> myDict))
  = Raise IndexError.
Proof.
  intros Hlen. cbv zeta.
  change (split "," (rstrip isspace line)) with (lineage_fields line).
  pose proof (GisaidRoundTripFacts.split_nonempty "," (rstrip isspace line))
    as Hne.
  change (split "," (rstrip isspace line)) with (lineage_fields line) in Hne.
  destruct (lineage_fields line) as [|t [|i [|l rest]]]; simpl in *;
    try done; lia.
Qed.

Lemma lineage_rows (lines : list string) (myDict : gmap string string) :
  Forall (λ line, 3 ≤ length (lineage_fields line)) lines →
  foldlM (λ myDict line,
            let l := split "," (rstrip isspace line) in
            taxon ← list_getitem l 0;
            ID ← list_getitem l 1;
            lineage ← list_getitem l 2;
            Ok (<[ID := lineage]> myDict)) myDict lines
  = Ok (foldl (λ t line, <[default "" (lineage_fields line !! 1)
                           := default "" (lineage_fields line !! 2)]> t)
              myDict lines).
Proof.
  intros Hall. revert myDict.
  induction Hall as [|line lines Hline _ IH]; intros myDict; [done|].
  cbn [foldlM foldl]. rewrite (lineage_row_ok _ _ Hline).
  cbn [mbind result_bind]. apply IH.
Qed.

Lemma foldl_insert_other {A} (key val : A → string) (l : list A)
    (t : gmap string string) (k : string) :
  k ∉ map key l →
  foldl (λ t a, <[key a := val a]> t) t l !! k = t !! k.
Proof.
  revert t. induction l as [|a l IH]; intros t Hk; [done|].
  simpl in *. rewrite IH.
  - rewrite lookup_insert_ne; [done|]. intros <-. apply Hk. left.
  - intros ?. apply Hk. by right.
Qed.

(** The table of the lineage file.  The first line is no header for the
    loop: when every line, the first included, has three fields at
    least, the table maps the second field of every line to the third
    field of the last line that has this second field. *)
Theorem lineage_table_of_lines (lines pre post : list string)
    (line : string) :
  Forall (λ line, 3 ≤ length (lineage_fields line)) lines →
  lines = pre ++ line :: post →
  default "" (lineage_fields line !! 1)
  ∉ map (λ line, default "" (lineage_fields line !! 1)) post →
  ∃ table,
    get_lineage_info lines = Ok table
    ∧ table !! default "" (lineage_fields line !! 1)
      = Some (default "" (lineage_fields line !! 2)).
Proof.
  intros Hall -> Hpost. unfold get_lineage_info.
  rewrite (lineage_rows _ _ Hall). eexists. split; [done|].
  rewrite foldl_app. cbn [foldl].
  rewrite (foldl_insert_other
             (λ line, default "" (lineage_fields line !! 1))
             (λ line, default "" (lineage_fields line !! 2))) by done.
  by rewrite lookup_insert_eq.
Qed.

Lemma lineage_table_of_lines_witness :
  ∃ table,
    get_lineage_info [ "taxon,ID,lineage" +:+ nl;
                       "hCoV-19/x,EPI_ISL_000001,UK5" +:+ nl ]
    = Ok table
    ∧ table !! default "" (lineage_fields ("taxon,ID,lineage" +:+ nl) !! 1)
      = Some (default "" (lineage_fields ("taxon,ID,lineage" +:+ nl) !! 2)).
Proof.
  apply (lineage_table_of_lines _ []
           [ "hCoV-19/x,EPI_ISL_000001,UK5" +:+ nl ]).
  - constructor; [vm_compute; lia|].
    constructor; [vm_compute; lia|]. constructor.
  - reflexivity.
  - apply (bool_decide_unpack _). vm_compute. exact I.
Defined.

(** A line of the lineage file with fewer than three fields, such as an
    empty line, ends the reading with [IndexError]. *)
Theorem short_lineage_line_raises (good rest : list string) (bad : string) :
  Forall (λ line, 3 ≤ length (lineage_fields line)) good →
  length (lineage_fields bad) < 3 →
  get_lineage_info (good ++ bad :: rest) = Raise IndexError.
Proof.
  intros Hgood Hbad. unfold get_lineage_info.
  generalize (∅ : gmap string string).
  induction Hgood as [|line lines Hline _ IH]; intros myDict.
  - cbn [app foldlM]. by rewrite (lineage_row_short _ _ Hbad).
  - cbn [app foldlM]. rewrite (lineage_row_ok _ _ Hline).
    cbn [mbind result_bind]. apply IH.
Qed.

Lemma short_lineage_line_raises_witness :
  get_lineage_info ([ "taxon,ID,lineage" +:+ nl ] ++ nl :: [])
  = Raise IndexError.
Proof.
  apply (short_lineage_line_raises [ "taxon,ID,lineage" +:+ nl ] [] nl).
  - constructor; [vm_compute; lia|]. constructor.
  - vm_compute. lia.
Defined.

End GisaidSideFileExtras.

Module CurateExtras.
Import Py ODict Curate.

(** *** Reading the traits file *)

Definition tokens (l : string) : list string :=
  split "," (strip (Ascii.eqb newline) l).

(** The taxon of a row of the United Kingdom. *)
Definition uk_taxon (l : string) : option taxon :=
  if String.eqb (default "" (tokens l !! 1)) "UK"
  then Some {| id := default "" (tokens l !! 0);
               old_lineage := default "" (tokens l !! 2);
               acctrans := default "" (tokens l !! 6) |}
  else None.

Lemma read_line_spec (taxon_list : list taxon) (l : string) :
  2 ≤ length (tokens l) →
  (tokens l !! 1 = Some "UK" → 7 ≤ length (tokens l)) →
  read_line taxon_list l
  = Ok (taxon_list ++ match uk_taxon l with Some t => [t] | None => [] end).
Proof.
  intros H2 H7. unfold read_line, uk_taxon. cbv zeta.
  change (split "," (strip (Ascii.eqb newline) l)) with (tokens l).
  destruct (tokens l) as [|t0 [|t1 rest]] eqn:Htok; simpl in H2; try lia.
  simpl. destruct (String.eqb_spec t1 "UK") as [->|Hne].
  - specialize (H7 eq_refl). simpl in H7.
    destruct rest as [|t2 [|t3 [|t4 [|t5 [|t6 rest]]]]]; simpl in H7;
      try lia.
    reflexivity.
  - by rewrite app_nil_r.
Qed.

(** Only the rows whose second field is [UK] become taxa, in the order of
    the file, and the first line is skipped: when every row has two
    fields at least, and seven when it is a row of the United Kingdom,
    the tallies are those of the taxa of these rows. *)
Theorem uk_rows_become_taxa (header : string) (rows : list string) :
  Forall (λ l, 2 ≤ length (tokens l)
               ∧ (tokens l !! 1 = Some "UK" → 7 ≤ length (tokens l))) rows →
  make_taxon_objects (header :: rows)
  = Ok (make_tallies (omap uk_taxon rows)).
Proof.
  intros Hall. unfold make_taxon_objects.
  assert (∀ acc, foldlM read_line acc rows
                 = Ok (acc ++ omap uk_taxon rows)) as ->; [|done].
  induction Hall as [|l rows [H2 H7] _ IH]; intros acc; simpl.
  - by rewrite app_nil_r.
  - rewrite (read_line_spec _ _ H2 H7). simpl. rewrite IH.
    destruct (uk_taxon l); simpl; by rewrite <- app_assoc.
Qed.

Lemma uk_rows_become_taxa_witness :
  make_taxon_objects
    (traits_header
     :: [ traits_row "t1" "UK2" "A"; "t9,France"; traits_row "t2" "" "B" ])
  = Ok (make_tallies
          (omap uk_taxon
                [ traits_row "t1" "UK2" "A"; "t9,France";
                  traits_row "t2" "" "B" ])).
Proof.
  apply (uk_rows_become_taxa traits_header).
  repeat (constructor;
          [split; [vm_compute; lia
                  |vm_compute; intros H; first [lia|discriminate H]]|]).
  constructor.
Defined.

(** *** Naming the clusters *)

Lemma get_set_eq {V} (k : string) (v : V) (d : odict string V) :
  get k (set k v d) = Some v.
Proof.
  induction d as [|[k' v'] d IH]; simpl.
  - by rewrite decide_True.
  - destruct (decide (k = k')) as [->|Hne]; simpl.
    + by rewrite decide_True.
    + by rewrite decide_False.
Qed.

Lemma get_set_ne {V} (k k' : string) (v : V) (d : odict string V) :
  k ≠ k' → get k' (set k v d) = get k' d.
Proof.
  intros Hne. induction d as [|[k0 v0] d IH]; simpl.
  - by rewrite decide_False.
  - destruct (decide (k = k0)) as [->|Hne0]; simpl.
    + by rewrite !decide_False.
    + destruct (decide (k' = k0)); [done|exact IH].
Qed.

Lemma name_one_sets (st st' : list Z * list Z * odict string string)
    (kv : string * list string) :
  name_one st kv = Ok st' →
  ∃ lin0 name,
    head kv.2 = Some lin0
    ∧ st'.2 = set kv.1 name st.2
    ∧ (lin0 ≠ "" → name = lin0)
    ∧ (lin0 = "" → ∃ n, name = "UK" +:+ py_str n).
Proof.
  destruct st as [[usable full] acc_final]. destruct kv as [acc lins].
  unfold name_one, list_getitem. simpl.
  destruct lins as [|lin0 lins]; simpl; [discriminate|].
  destruct (String.eqb_spec lin0 "") as [->|Hne].
  - destruct usable as [|n rest]; intros [= <-]; simpl;
      eexists "", _; (split; [done|]); (split; [done|]);
      (split; [done|]); intros _; eauto.
  - intros [= <-]. exists lin0, lin0. by repeat split.
Qed.

Lemma name_one_fold (l : list (string * list string)) :
  ∀ st st' : list Z * list Z * odict string string,
  foldlM name_one st l = Ok st' →
  NoDup (map fst l) →
  (∀ acc lins lin0, (acc, lins) ∈ l → head lins = Some lin0 →
     ∃ name, get acc st'.2 = Some name
             ∧ (lin0 ≠ "" → name = lin0)
             ∧ (lin0 = "" → ∃ n, name = "UK" +:+ py_str n))
  ∧ (∀ k, k ∉ map fst l → get k st'.2 = get k st.2).
Proof.
  induction l as [|[acc0 lins0] l IH]; intros st st' Hrun Hnd.
  - injection Hrun as <-. split; [|done].
    intros acc lins lin0 Hin. by apply elem_of_nil in Hin.
  - simpl in Hrun.
    destruct (name_one st (acc0, lins0)) as [st1|] eqn:Hone;
      [|discriminate].
    simpl in Hrun, Hnd. apply NoDup_cons in Hnd as [Hkv Hnd].
    destruct (IH _ _ Hrun Hnd) as [Hin Hout].
    destruct (name_one_sets _ _ _ Hone) as (lin0 & name & Hh & Hset & Hk & He).
    split.
    + intros acc lins lin0' [[= -> ->]|Hl]%elem_of_cons Hhead.
      * exists name. simpl in Hset. rewrite (Hout _ Hkv), Hset.
        rewrite get_set_eq. simpl in Hh. split; [done|].
        assert (lin0' = lin0) as -> by congruence. by split.
      * by apply (Hin acc lins).
    + intros k Hk'. rewrite Hout.
      * simpl in Hset. rewrite Hset. apply get_set_ne.
        intros ->. apply Hk'. left.
      * intros ?. apply Hk'. by right.
Qed.

(** The final names.  A cluster whose label is not empty keeps it, and a
    cluster without a label gets [UK] followed by a number, whenever the
    naming returns. *)
Theorem labels_kept_or_numbered
    (acc_final_name_dict : odict string (list string))
    (acc_final : odict string string) (test_counter : odict Z nat)
    (acc : string) (lins : list string) (lin0 : string) :
  name_new_lineages acc_final_name_dict = Ok (acc_final, test_counter) →
  NoDup (keys acc_final_name_dict) →
  (acc, lins) ∈ acc_final_name_dict → head lins = Some lin0 →
  ∃ name, get acc acc_final = Some name
          ∧ (lin0 ≠ "" → name = lin0)
          ∧ (lin0 = "" → ∃ n, name = "UK" +:+ py_str n).
Proof.
  unfold name_new_lineages. intros Hrun Hnd.
  destruct (foldlM collect_used_name [] acc_final_name_dict) as [used|];
    simpl in Hrun; [|discriminate].
  match type of Hrun with
  | (?run ≫= _) = _ => destruct run as [st|] eqn:Hfold
  end; [|discriminate].
  simpl in Hrun. injection Hrun as <- _.
  apply (proj1 (name_one_fold _ _ _ Hfold Hnd)).
Qed.

Lemma labels_kept_or_numbered_witness :
  ∃ name, get "B" [("A", "UK2"); ("B", "UK1"); ("C", "UK7")] = Some name
          ∧ ("" ≠ "" → name = "")
          ∧ ("" = "" → ∃ n, name = "UK" +:+ py_str n).
Proof.
  apply (labels_kept_or_numbered
           [("A", ["UK2"]); ("B", [""]); ("C", ["UK7"])]
           [("A", "UK2"); ("B", "UK1"); ("C", "UK7")]
           [(2%Z, 1); (7%Z, 1)] "B" [""] "").
  - vm_compute. reflexivity.
  - apply (bool_decide_unpack _). vm_compute. exact I.
  - right. left.
  - reflexivity.
Defined.

End CurateExtras.
